(** * ikLogParser: a shallow embedding of [ikLogParser.py]

    The parser reads an Auger iklog file line by line, keeps the lines that
    carry an IkT3 request, splits the request on spaces outside braces
    ([GetT3RequestInfo]), decodes the [key=value] tokens into a dictionary
    ([OrganizeT3Info]), and writes the timing data of one local station
    ([GetLetyInfo], [ParseIkLog]).

    Python values are modelled as follows: a [str] is the list of its
    characters, taken in the Latin-1 range; an exception is a constructor of
    [pyerr] carried by the [Raise] branch of [result]; a [dict] with string
    keys is a [gmap]; an [int] is a [Z]; a [float] is a double in exact
    arithmetic, with correct rounding of decimal literals. *)

From Stdlib Require Import ZArith Ascii String List Lia Bool DecimalString DecimalPos.
From stdpp Require Import gmap strings list fin_maps.
Import ListNotations.

Local Open Scope Z_scope.
Local Open Scope list_scope.

(** ** Python strings *)

Module PyStr.

(** A Python string: the sequence of its characters. *)
Abbreviation str := (list ascii).

(** A literal, written as a Rocq string. *)
Definition py (s : string) : str := list_ascii_of_string s.

Definition chr_eqb (a b : ascii) : bool := Ascii.eqb a b.

(** [str.isspace] on one character: the whitespace that [str.strip]
    removes (tab to carriage return, the four separators 28-31, the space,
    and in the Latin-1 range NEL and the no-break space). *)
Definition is_space (c : ascii) : bool :=
  let n := nat_of_ascii c in
  ((9 <=? n)%nat && (n <=? 13)%nat) || ((28 <=? n)%nat && (n <=? 32)%nat)
  || (n =? 133)%nat || (n =? 160)%nat.

(** [s.lstrip], [s.rstrip] and [s.strip] with the characters to remove
    given by a predicate. *)
Fixpoint lstrip_by (p : ascii -> bool) (s : str) : str :=
  match s with
  | c :: s' => if p c then lstrip_by p s' else s
  | [] => []
  end.

Definition rstrip_by (p : ascii -> bool) (s : str) : str :=
  rev (lstrip_by p (rev s)).

Definition strip_by (p : ascii -> bool) (s : str) : str :=
  rstrip_by p (lstrip_by p s).

(** [s.strip()] *)
Definition strip (s : str) : str := strip_by is_space s.

(** [s.strip(chars)] *)
Definition strip_chars (chars : str) (s : str) : str :=
  strip_by (fun c => existsb (chr_eqb c) chars) s.

(** [s.split(sep)] for a one-character separator: the pieces between the
    separators, empty pieces included; the result is never empty. *)
Fixpoint split (sep : ascii) (s : str) : list str :=
  match s with
  | [] => [[]]
  | c :: s' =>
      if chr_eqb c sep then [] :: split sep s'
      else match split sep s' with
           | piece :: pieces => (c :: piece) :: pieces
           | [] => [[c]]
           end
  end.

(** [s.split(sep, 1)]: cut at the first separator only. *)
Fixpoint split1 (sep : ascii) (s : str) : list str :=
  match s with
  | [] => [[]]
  | c :: s' =>
      if chr_eqb c sep then [[]; s']
      else match split1 sep s' with
           | piece :: pieces => (c :: piece) :: pieces
           | [] => [[c]]
           end
  end.

(** [sep in s] for a one-character [sep]. *)
Definition contains (sep : ascii) (s : str) : bool := existsb (chr_eqb sep) s.

(** [a == b] on strings. *)
Fixpoint str_eqb (a b : str) : bool :=
  match a, b with
  | [], [] => true
  | x :: a', y :: b' => chr_eqb x y && str_eqb a' b'
  | _, _ => false
  end.

(** [s.startswith(prefix)] *)
Fixpoint startswith (s prefix : str) {struct prefix} : bool :=
  match prefix, s with
  | [], _ => true
  | p :: prefix', c :: s' => chr_eqb c p && startswith s' prefix'
  | _ :: _, [] => false
  end.

(** [s.endswith(suffix)] *)
Definition endswith (s suffix : str) : bool := startswith (rev s) (rev suffix).

(** [s[1:-1]] *)
Definition slice_1_m1 (s : str) : str := removelast (tl s).

(** [sep.join(pieces)] for a one-character [sep]. *)
Fixpoint join (sep : ascii) (pieces : list str) : str :=
  match pieces with
  | [] => []
  | [p] => p
  | p :: rest => p ++ sep :: join sep rest
  end.

End PyStr.
Import PyStr.

(** ** Exceptions *)

Inductive pyerr : Type :=
  | ValueError | KeyError | IndexError | TypeError | AttributeError
  | OverflowError.

Inductive result (A : Type) : Type :=
  | Ok (a : A)
  | Raise (e : pyerr).
Arguments Ok {A} a.
Arguments Raise {A} e.

Definition bind {A B : Type} (r : result A) (k : A -> result B) : result B :=
  match r with
  | Ok a => k a
  | Raise e => Raise e
  end.

Notation "'let!' x ':=' r 'in' k" := (bind r (fun x => k))
  (at level 10, x name, r at level 100, k at level 200).

(** ** [GetT3RequestInfo]: the brace-aware tokenizer (lines 15-52) *)

(** The three locals of the loop. *)
Record scan_state : Type := mkScan {
  separated : list str;
  entry : str;
  inside_brace : bool
}.

Definition scan_init : scan_state :=
  {| separated := []; entry := []; inside_brace := false |}.

(** [string[i] == delimiter]: [delimiter] is [None] or a string, and a
    one-character string equals it only when it is that one character. *)
Definition is_delimiter (c : ascii) (delimiter : option str) : bool :=
  match delimiter with
  | Some [d] => chr_eqb c d
  | _ => false
  end.

(** One iteration of the loop, lines 37-47. *)
Definition scan_step (delimiter : option str) (st : scan_state) (c : ascii)
  : scan_state :=
  if chr_eqb c "{" then
    {| separated := separated st; entry := entry st ++ [c]; inside_brace := true |}
  else if chr_eqb c "}" then
    {| separated := separated st; entry := entry st ++ [c]; inside_brace := false |}
  else if is_delimiter c delimiter && negb (inside_brace st) then
    {| separated := separated st ++ [entry st]; entry := [];
       inside_brace := inside_brace st |}
  else
    {| separated := separated st; entry := entry st ++ [c];
       inside_brace := inside_brace st |}.

(** The loop of lines 36-47, from an arbitrary state. *)
Definition scan_from (delimiter : option str) (st : scan_state) (s : str)
  : scan_state :=
  fold_left (scan_step delimiter) s st.

Definition scan (delimiter : option str) (s : str) : scan_state :=
  scan_from delimiter scan_init s.

(** Lines 49-52: the last buffer is kept only when it is not empty. *)
Definition finish (st : scan_state) : list str :=
  if negb (length (entry st) =? 0)%nat then separated st ++ [entry st]
  else separated st.

Definition GetT3RequestInfo (string : str) (delimiter : option str) : list str :=
  finish (scan delimiter string).

(** ** Numbers: [int(str)], [float(str)], [int(float)], [str(int)] *)

Module PyNum.

Definition is_digit (c : ascii) : bool :=
  let n := nat_of_ascii c in (48 <=? n)%nat && (n <=? 57)%nat.

Definition digit_val (c : ascii) : Z := Z.of_nat (nat_of_ascii c) - 48.

(** Decimal digits where single underscores may separate digits
    (["1_000"]); [prev] tells whether the previous character was a digit.
    The digit string must be non-empty and must not begin or end with an
    underscore. The result is the value and the number of digits. *)
Fixpoint digitpart (acc : Z) (n : Z) (prev : bool) (s : str) : option (Z * Z) :=
  match s with
  | [] => if prev then Some (acc, n) else None
  | c :: s' =>
      if is_digit c then digitpart (10 * acc + digit_val c) (n + 1) true s'
      else if chr_eqb c "_" then
        if prev then digitpart acc n false s' else None
      else None
  end.

(** The whitespace that [int] and [float] ignore around a literal: that of
    [str.strip] without the separators 28-31. *)
Definition is_space_num (c : ascii) : bool :=
  let n := nat_of_ascii c in
  ((9 <=? n)%nat && (n <=? 13)%nat) || (n =? 32)%nat
  || (n =? 133)%nat || (n =? 160)%nat.

(** An optional sign: [(negative, rest)]. *)
Definition take_sign (s : str) : bool * str :=
  match s with
  | c :: s' =>
      if chr_eqb c "-" then (true, s')
      else if chr_eqb c "+" then (false, s')
      else (false, s)
  | [] => (false, [])
  end.

Definition apply_sign (neg : bool) (z : Z) : Z := if neg then - z else z.

(** [int(s)] for a string, base 10: surrounding whitespace is ignored, then
    an optional sign and a digit part. Anything else is a [ValueError]. (The
    bound that recent interpreters put on the number of digits is left
    out.) *)
Definition int_of_str (s : str) : result Z :=
  let (neg, body) := take_sign (strip_by is_space_num s) in
  match digitpart 0 0 false body with
  | Some (v, _) => Ok (apply_sign neg v)
  | None => Raise ValueError
  end.

(** A double: a finite value [(-1)^neg * m * 2^e] with [0 <= m < 2^53] and
    [-1074 <= e <= 971], an infinity, or a NaN. *)
Inductive pyfloat : Type :=
  | FFinite (neg : bool) (m e : Z)
  | FInf (neg : bool)
  | FNaN.

(** Round the positive rational [n / d] half-to-even to 53 significant bits,
    exponent at least -1074: the [(m, e)] of the nearest double, with
    [e > 971] when the value overflows. *)
Definition round_binary64 (n d : Z) : Z * Z :=
  let e0 := Z.log2 n - Z.log2 d - 52 in
  let scaled (e : Z) := if e <? 0 then (n * 2 ^ (- e), d) else (n, d * 2 ^ e) in
  let e1 := let (a, b) := scaled e0 in if a / b <? 2 ^ 52 then e0 - 1 else e0 in
  let e := Z.max e1 (-1074) in
  let (a, b) := scaled e in
  let q := a / b in
  let r := a mod b in
  let q' := if (b <? 2 * r) || ((b =? 2 * r) && Z.odd q) then q + 1 else q in
  if q' =? 2 ^ 53 then (2 ^ 52, e + 1) else (q', e).

(** The double nearest to [(-1)^neg * m * 10^e10]. *)
Definition float_of_decimal (neg : bool) (m e10 : Z) : pyfloat :=
  if m =? 0 then FFinite neg 0 0
  else
    let (n, d) := if e10 <? 0 then (m, 10 ^ (- e10)) else (m * 10 ^ e10, 1) in
    let (q, e) := round_binary64 n d in
    if 971 <? e then FInf neg else FFinite neg q e.

Definition lower (c : ascii) : ascii :=
  let n := nat_of_ascii c in
  if (65 <=? n)%nat && (n <=? 90)%nat then ascii_of_nat (n + 32) else c.

(** Underscores in a float literal: each one must stand between two digits;
    the literal is then read without them. *)
Fixpoint underscores_ok (prev : option ascii) (s : str) : bool :=
  match s with
  | [] => true
  | c :: s' =>
      if chr_eqb c "_" then
        match prev, s' with
        | Some p, n :: _ => is_digit p && is_digit n && underscores_ok (Some c) s'
        | _, _ => false
        end
      else underscores_ok (Some c) s'
  end.

Definition drop_underscores (s : str) : str :=
  filter (fun c => negb (chr_eqb c "_")) s.

(** A run of digits: value, number of digits, rest. *)
Fixpoint digits_run (acc n : Z) (s : str) : Z * Z * str :=
  match s with
  | c :: s' => if is_digit c then digits_run (10 * acc + digit_val c) (n + 1) s'
               else (acc, n, s)
  | [] => (acc, n, [])
  end.

(** The exponent part [e[+-]digits], which must reach the end of [s]. *)
Definition exponent (s : str) : option Z :=
  match s with
  | [] => Some 0
  | c :: s' =>
      if chr_eqb (lower c) "e" then
        let (neg, body) := take_sign s' in
        match digits_run 0 0 body with
        | (v, n, []) => if 0 <? n then Some (apply_sign neg v) else None
        | _ => None
        end
      else None
  end.

(** [float(s)] for a string: surrounding whitespace is ignored; then an
    optional sign followed by [inf], [infinity] or [nan] in any case, or by a
    decimal literal [digits[.digits][e[+-]digits]] with at least one digit
    before the exponent. The value is correctly rounded. *)
Definition float_of_str (s : str) : result pyfloat :=
  let s := strip_by is_space_num s in
  if negb (underscores_ok None s) then Raise ValueError
  else
    let (neg, body) := take_sign (drop_underscores s) in
    let word := map lower body in
    if str_eqb word (py "inf") || str_eqb word (py "infinity") then Ok (FInf neg)
    else if str_eqb word (py "nan") then Ok FNaN
    else
      let '(ip, ni, rest) := digits_run 0 0 body in
      let '(fp, nf, rest) :=
        match rest with
        | c :: rest' => if chr_eqb c "." then digits_run ip 0 rest'
                        else (ip, 0, rest)
        | [] => (ip, 0, [])
        end in
      if (ni + nf =? 0) then Raise ValueError
      else match exponent rest with
           | Some x => Ok (float_of_decimal neg fp (x - nf))
           | None => Raise ValueError
           end.

(** [int(x)] for a float: truncation toward zero; an infinity is an
    [OverflowError] and a NaN a [ValueError]. *)
Definition int_of_float (x : pyfloat) : result Z :=
  match x with
  | FFinite neg m e =>
      Ok (if e <? 0 then Z.quot (apply_sign neg m) (2 ^ (- e))
          else apply_sign neg m * 2 ^ e)
  | FInf _ => Raise OverflowError
  | FNaN => Raise ValueError
  end.

(** [str(z)] for an integer. *)
Definition str_of_int (z : Z) : str :=
  py (NilZero.string_of_int (Z.to_int z)).

End PyNum.
Import PyNum.

(** ** [OrganizeT3Info]: the field decoder (lines 54-89) *)

(** The values the decoder stores: an [int], a list of [int], or a [str]. *)
Inductive pyvalue : Type :=
  | VInt (z : Z)
  | VList (l : list Z)
  | VStr (s : str).

(** [list(map(int, value_list))]: the first piece that is not an integer
    raises. *)
Fixpoint map_int (value_list : list str) : result (list Z) :=
  match value_list with
  | [] => Ok []
  | piece :: rest =>
      let! z := int_of_str piece in
      let! zs := map_int rest in
      Ok (z :: zs)
  end.

(** Lines 74-85, on the stripped right-hand side. *)
Definition decode_value (value : str) : result pyvalue :=
  if startswith value (py "{") && endswith value (py "}") then
    let value := strip (slice_1_m1 value) in
    let value_list := split " " value in
    let! ints := map_int value_list in
    Ok (VList ints)
  else if startswith value ["034"%char] && endswith value ["034"%char] then
    Ok (VStr value)
  else
    let! x := float_of_str value in
    let! z := int_of_float x in
    Ok (VInt z).

(** The body of the loop, lines 70-87. Unpacking [key, value] needs exactly
    two pieces, which [split1] gives whenever the string contains ["="]. *)
Definition organize_step (info : gmap str pyvalue) (string : str)
  : result (gmap str pyvalue) :=
  if contains "=" string then
    match split1 "=" string with
    | [key; value] =>
        let value := strip value in
        let! v := decode_value value in
        Ok (<[key := v]> info)
    | _ => Raise ValueError
    end
  else Ok info.

(** The loop of lines 69-87 from a given dictionary. *)
Fixpoint organize_from (info : gmap str pyvalue) (t3request : list str)
  : result (gmap str pyvalue) :=
  match t3request with
  | [] => Ok info
  | string :: rest =>
      let! info' := organize_step info string in
      organize_from info' rest
  end.

Definition OrganizeT3Info (t3request : list str) : result (gmap str pyvalue) :=
  organize_from ∅ t3request.

(** ** [GetLetyInfo]: selection of one station (lines 91-121) *)

(** [data[key]] *)
Definition getitem (data : gmap str pyvalue) (key : str) : result pyvalue :=
  match data !! key with
  | Some v => Ok v
  | None => Raise KeyError
  end.

(** [l.index(x)] on a list of integers, counted from [i]: the first
    position holding a value equal to [x]. *)
Fixpoint index_from (i : nat) (l : list Z) (x : Z) : option nat :=
  match l with
  | [] => None
  | y :: l' => if y =? x then Some i else index_from (S i) l' x
  end.

(** [v.index(x)] with [x] an [int]: only a list has a usable [index]; a
    [str] refuses an integer argument and an [int] has no such method. *)
Definition value_index (v : pyvalue) (x : Z) : result nat :=
  match v with
  | VList l =>
      match index_from 0 l x with
      | Some i => Ok i
      | None => Raise ValueError
      end
  | VStr _ => Raise TypeError
  | VInt _ => Raise AttributeError
  end.

(** [v[ind]] for [ind >= 0]: an element of a list, a character of a string. *)
Definition subscript (v : pyvalue) (ind : nat) : result pyvalue :=
  match v with
  | VList l =>
      match nth_error l ind with
      | Some z => Ok (VInt z)
      | None => Raise IndexError
      end
  | VStr s =>
      match nth_error s ind with
      | Some c => Ok (VStr [c])
      | None => Raise IndexError
      end
  | VInt _ => Raise TypeError
  end.

(** Lines 113-119, on the decoded dictionary. *)
Definition lety_data (data : gmap str pyvalue) (LetyID : Z) : result (list pyvalue) :=
  let! addresses := getitem data (py "addresses") in
  let! ind := value_index addresses LetyID in
  let! offsets := getitem data (py "offsets") in
  let! offset := subscript offsets ind in
  let! windows := getitem data (py "window") in
  let! window := subscript windows ind in
  let! gpsSec := getitem data (py "refSecond") in
  let! gpsMicroSec := getitem data (py "refuSecond") in
  Ok [gpsSec; gpsMicroSec; offset; window].

Definition GetLetyInfo (t3info : list str) (LetyID : Z) : result (list pyvalue) :=
  let! data := OrganizeT3Info t3info in
  lety_data data LetyID.

(** ** [ParseIkLog]: the loop over the lines (lines 123-191) *)

(** [sep.join(pieces)] for a separator of any length. *)
Fixpoint join_str (sep : str) (pieces : list str) : str :=
  match pieces with
  | [] => []
  | [p] => p
  | p :: rest => p ++ sep ++ join_str sep rest
  end.

(** [str(v)] *)
Definition str_of_value (v : pyvalue) : str :=
  match v with
  | VInt z => str_of_int z
  | VList l => py "[" ++ join_str (py ", ") (map str_of_int l) ++ py "]"
  | VStr s => s
  end.

(** [l[i]] for [i >= 0]. *)
Definition item {A : Type} (l : list A) (i : nat) : result A :=
  match nth_error l i with
  | Some a => Ok a
  | None => Raise IndexError
  end.

(** [x in l] and [x not in l] on a list of strings. *)
Definition str_in (x : str) (l : list str) : bool := existsb (str_eqb x) l.

(** [next((string for string in t3info if string.startswith("addresses=")), "")] *)
Fixpoint first_addresses (t3info : list str) : str :=
  match t3info with
  | [] => []
  | string :: rest =>
      if startswith string (py "addresses=") then string
      else first_addresses rest
  end.

(** What one line of the input does: nothing, one line written to the
    output file, or an exception that ends the run. *)
Inductive line_outcome : Type :=
  | Skipped
  | Written (text : str)
  | Failed (e : pyerr).

(** Line 189: the text written for one request. *)
Definition format_record (letyT3 : list pyvalue) : result str :=
  let! a := item letyT3 0 in
  let! b := item letyT3 1 in
  let! c := item letyT3 2 in
  let! d := item letyT3 3 in
  Ok (str_of_value a ++ py ", " ++ str_of_value b ++ py ", "
      ++ str_of_value c ++ py ", " ++ str_of_value d ++ ["010"%char]).

(** Lines 174-189: the request string of an IkT3 line. The counter
    [letyNum] is incremented and never read. *)
Definition process_request (t3string : str) (LetyID : Z) : line_outcome :=
  let t3info := GetT3RequestInfo t3string (Some (py " ")) in
  let address_entry := first_addresses t3info in
  if str_eqb address_entry [] then Skipped
  else
    match item (split "=" address_entry) 1 with
    | Raise e => Failed e
    | Ok field =>
        let addresses := split " " (strip_chars (py "{}") field) in
        if negb (str_in (str_of_int LetyID) addresses) then Skipped
        else
          match let! letyT3 := GetLetyInfo t3info LetyID in format_record letyT3 with
          | Ok text => Written text
          | Raise e => Failed e
          end
    end.

(** Lines 162-189: one line of the input file. The locals [trig] and
    [message] (columns 1 and 3) are read and never used. *)
Definition process_line (line : str) (LetyID : Z) : line_outcome :=
  let cols := split "|" (strip line) in
  if negb (length cols =? 6)%nat then Skipped
  else if negb (str_in (py "IkT3") cols) then Skipped
  else
    match item cols 4 with
    | Ok t3string => process_request t3string LetyID
    | Raise e => Failed e
    end.

(** The state of a run: the lines written so far and the exception that
    stopped it, if any. Nothing catches an exception, so the first one ends
    the loop. *)
Record run : Type := mkRun {
  written : list str;
  raised : option pyerr
}.

(** The loop of lines 161-189. *)
Fixpoint process_lines (lines : list str) (LetyID : Z) (out : list str) : run :=
  match lines with
  | [] => {| written := out; raised := None |}
  | line :: rest =>
      match process_line line LetyID with
      | Skipped => process_lines rest LetyID out
      | Written text => process_lines rest LetyID (out ++ [text])
      | Failed e => {| written := out; raised := Some e |}
      end
  end.

(** Lines 147-153: the name of the output file. [outputFilepath[-1]] is the
    last character. *)
Definition out_file (inputFile outputFilepath : str) : result str :=
  let splt := split "_" inputFile in
  let! d1 := item splt 1 in
  let! d2 := item splt 2 in
  let! d3 := item splt 3 in
  let filedate := d1 ++ py "_" ++ d2 ++ py "_" ++ d3 in
  let! last_char := item (rev outputFilepath) 0 in
  if chr_eqb last_char "/" then
    Ok (outputFilepath ++ py "LetyT3Requests_" ++ filedate ++ py ".txt")
  else
    Ok (outputFilepath ++ py "/LetyT3Requests_" ++ filedate ++ py ".txt").

(** [ParseIkLog]: [lines] is the content of the file at [inputFile]. The
    result is the name of the output file and the run that wrote it; an
    exception raised while the name is built comes before any file is
    opened. *)
Definition ParseIkLog (inputFile outputFilepath : str) (lines : list str)
    (LetyID : Z) : result (str * run) :=
  let! outFile := out_file inputFile outputFilepath in
  Ok (outFile,
      process_lines lines LetyID [py "#gpsSec, gpsMicroSec, offset, window" ++ ["010"%char]]).

(** ** Notions used to state the properties *)

(** The two states of a string whose braces are balanced and not nested:
    [{] is read only outside a span and [}] only inside one. *)
Definition flat_step (o : option bool) (c : ascii) : option bool :=
  match o with
  | None => None
  | Some inside =>
      if chr_eqb c "{" then (if inside then None else Some true)
      else if chr_eqb c "}" then (if inside then Some false else None)
      else Some inside
  end.

Definition flat_run (s : str) : option bool := fold_left flat_step s (Some false).

(** Every [{] is closed by a later [}] before the next [{], and the string
    ends outside braces. *)
Definition balanced_flat (s : str) : Prop := flat_run s = Some false.

(** The nesting depth after [s]: opening braces minus closing braces. *)
Definition depth (s : str) : Z :=
  Z.of_nat (count_occ ascii_dec s "{"%char) - Z.of_nat (count_occ ascii_dec s "}"%char).

(** Position [i] of [s] lies outside braces: the depth is zero on both sides
    of the character, so that the braces of a span belong to the span. *)
Definition outside_at (s : str) (i : nat) : Prop :=
  depth (firstn i s) = 0 /\ depth (firstn (S i) s) = 0.

(** An occurrence of the delimiter [d] outside braces. *)
Definition delimiter_outside (d : ascii) (s : str) (i : nat) : Prop :=
  nth_error s i = Some d /\ outside_at s i.

(** The positions, in [join d (seps ++ [last])], of the separators that
    follow the pieces [seps], the first piece starting at [off]. *)
Fixpoint cuts_from (off : nat) (seps : list str) : list nat :=
  match seps with
  | [] => []
  | p :: rest => (off + length p)%nat :: cuts_from (off + length p + 1)%nat rest
  end.

(** The positions at which [join d pieces] was cut to give [pieces]. *)
Definition cut_positions (pieces : list str) : list nat :=
  cuts_from 0 (removelast pieces).

(** The pieces without a last empty piece. *)
Definition drop_trailing_empty (pieces : list str) : list str :=
  match rev pieces with
  | [] :: _ => removelast pieces
  | _ => pieces
  end.

(** The character [c], read after [pre], lies outside braces for the
    scanner: the flag is false before it and after it. *)
Definition scanned_outside (delimiter : option str) (pre : str) (c : ascii) : bool :=
  negb (inside_brace (scan delimiter pre))
  && negb (inside_brace (scan delimiter (pre ++ [c]))).

(** The value of a finite double, as a fraction of two integers. *)
Definition float_fraction (neg : bool) (m e : Z) : Z * Z :=
  (apply_sign neg m * 2 ^ Z.max e 0, 2 ^ Z.max (- e) 0).

(** A fraction truncated toward zero. *)
Definition truncate (q : Z * Z) : Z := Z.quot (fst q) (snd q).

(** The test of lines 179-184 lets a request through: its first
    [addresses=] token lists the decimal text of the station. *)
Definition listed (t3info : list str) (LetyID : Z) : bool :=
  match item (split "=" (first_addresses t3info)) 1 with
  | Ok field => str_in (str_of_int LetyID) (split " " (strip_chars (py "{}") field))
  | Raise _ => false
  end.

(** A scanner state with the tokens [l] flushed before its own. *)
Definition prepend (l : list str) (st : scan_state) : scan_state :=
  {| separated := l ++ separated st; entry := entry st;
     inside_brace := inside_brace st |}.

(** The lookup by value-equality finds [x] at index [i]: [l[i] = x] and no
    earlier element equals [x]. *)
Definition first_index (l : list Z) (x : Z) (i : nat) : Prop :=
  nth_error l i = Some x /\ forall j, (j < i)%nat -> nth_error l j <> Some x.

(** A dictionary with the five fields that the selection reads, the three
    sequences being lists of integers. *)
Record selected_fields (data : gmap str pyvalue)
    (addresses offsets window : list Z) (refSecond refuSecond : pyvalue) : Prop := {
  sf_addresses : data !! py "addresses" = Some (VList addresses);
  sf_offsets : data !! py "offsets" = Some (VList offsets);
  sf_window : data !! py "window" = Some (VList window);
  sf_refSecond : data !! py "refSecond" = Some refSecond;
  sf_refuSecond : data !! py "refuSecond" = Some refuSecond
}.

(** ** Notions used to state the further properties *)

Definition is_brace (c : ascii) : bool := chr_eqb c "{" || chr_eqb c "}".

(** The last brace character of a string, [}] when it has none. *)
Definition last_brace (s : str) : ascii :=
  List.last (List.filter is_brace s) "}"%char.

(** A line passes the two tests of lines 165 and 169. *)
Definition eligible (line : str) : bool :=
  (length (split "|" (strip line)) =? 6)%nat
  && str_in (py "IkT3") (split "|" (strip line)).

(** The value of a run of decimal digits read after the value [acc]. *)
Fixpoint uint_acc (acc : Z) (d : Decimal.uint) : Z :=
  match d with
  | Decimal.Nil => acc
  | Decimal.D0 d => uint_acc (10 * acc) d
  | Decimal.D1 d => uint_acc (10 * acc + 1) d
  | Decimal.D2 d => uint_acc (10 * acc + 2) d
  | Decimal.D3 d => uint_acc (10 * acc + 3) d
  | Decimal.D4 d => uint_acc (10 * acc + 4) d
  | Decimal.D5 d => uint_acc (10 * acc + 5) d
  | Decimal.D6 d => uint_acc (10 * acc + 6) d
  | Decimal.D7 d => uint_acc (10 * acc + 7) d
  | Decimal.D8 d => uint_acc (10 * acc + 8) d
  | Decimal.D9 d => uint_acc (10 * acc + 9) d
  end.

(** A character of the decimal text of an integer. *)
Definition numeric_char (c : ascii) : bool := is_digit c || chr_eqb c "-".

(** A list of integers as the log writes it: in braces, separated by single
    spaces. *)
Definition render_list (l : list Z) : str :=
  py "{" ++ join_str (py " ") (map str_of_int l) ++ py "}".

(** A request with the five fields that the selection reads. *)
Definition render_request (addresses offsets window : list Z)
    (refSecond refuSecond : Z) : str :=
  py "addresses=" ++ render_list addresses
  ++ py " offsets=" ++ render_list offsets
  ++ py " window=" ++ render_list window
  ++ py " refSecond=" ++ str_of_int refSecond
  ++ py " refuSecond=" ++ str_of_int refuSecond.


(** * Properties *)

(** ** Characters and strings *)

Lemma chr_eqb_eq (a b : ascii) : chr_eqb a b = true <-> a = b.
Proof. apply Ascii.eqb_eq. Qed.

Lemma chr_eqb_neq (a b : ascii) : chr_eqb a b = false <-> a <> b.
Proof. apply Ascii.eqb_neq. Qed.

Lemma chr_eqb_refl (a : ascii) : chr_eqb a a = true.
Proof. apply Ascii.eqb_refl. Qed.

Lemma str_eqb_eq (a b : str) : str_eqb a b = true <-> a = b.
Proof.
  revert b. induction a as [|x a IH]; intros [|y b]; simpl; split;
    try congruence; try reflexivity.
  - intros H. apply andb_true_iff in H as [Hx Hab].
    apply chr_eqb_eq in Hx. apply IH in Hab. congruence.
  - intros H. injection H as -> ->. rewrite chr_eqb_refl. simpl. now apply IH.
Qed.

Lemma str_in_In (x : str) (l : list str) : str_in x l = true <-> In x l.
Proof.
  unfold str_in. rewrite existsb_exists. split.
  - intros [y [Hy He]]. apply str_eqb_eq in He. now subst.
  - intros H. exists x. split; [assumption | now apply str_eqb_eq].
Qed.

(** ** The scanner of [GetT3RequestInfo] *)

Section Scanner.

Variable delimiter : option str.

Lemma scan_from_app (st : scan_state) (a b : str) :
  scan_from delimiter st (a ++ b) = scan_from delimiter (scan_from delimiter st a) b.
Proof. unfold scan_from. apply fold_left_app. Qed.

Lemma scan_app (a b : str) :
  scan delimiter (a ++ b) = scan_from delimiter (scan delimiter a) b.
Proof. apply scan_from_app. Qed.

Lemma scan_snoc (s : str) (c : ascii) :
  scan delimiter (s ++ [c]) = scan_step delimiter (scan delimiter s) c.
Proof. rewrite scan_app. reflexivity. Qed.

Lemma scan_step_prepend (l : list str) (st : scan_state) (c : ascii) :
  scan_step delimiter (prepend l st) c = prepend l (scan_step delimiter st c).
Proof.
  unfold scan_step, prepend. simpl.
  destruct (chr_eqb c "{"); [reflexivity|].
  destruct (chr_eqb c "}"); [reflexivity|].
  destruct (is_delimiter c delimiter && negb (inside_brace st)); simpl;
    [now rewrite app_assoc | reflexivity].
Qed.

Lemma scan_from_prepend (l : list str) (s : str) (st : scan_state) :
  scan_from delimiter (prepend l st) s = prepend l (scan_from delimiter st s).
Proof.
  revert st. induction s as [|c s IH]; intros st; simpl; [reflexivity|].
  unfold scan_from in *. simpl. rewrite scan_step_prepend. apply IH.
Qed.

Lemma finish_prepend (l : list str) (st : scan_state) :
  finish (prepend l st) = l ++ finish st.
Proof.
  unfold finish, prepend. simpl.
  destruct (negb (length (entry st) =? 0)%nat); [now rewrite app_assoc | reflexivity].
Qed.

(** After a flush the scanner is in its initial state, up to the tokens
    already produced. *)
Lemma scan_from_flushed (l : list str) (s : str) :
  scan_from delimiter {| separated := l; entry := []; inside_brace := false |} s
  = prepend l (scan delimiter s).
Proof.
  unfold scan. rewrite <- scan_from_prepend. unfold prepend, scan_init. simpl.
  now rewrite app_nil_r.
Qed.

(** Inside a brace, characters other than [}] are appended to the buffer. *)
Lemma scan_from_inside (l : list str) (e mid : str) :
  ~ In "}"%char mid ->
  scan_from delimiter {| separated := l; entry := e; inside_brace := true |} mid
  = {| separated := l; entry := e ++ mid; inside_brace := true |}.
Proof.
  revert e. induction mid as [|c mid IH]; intros e Hno.
  - simpl. now rewrite app_nil_r.
  - unfold scan_from in *. simpl. unfold scan_step at 2. simpl.
    assert (Hc : chr_eqb c "}" = false).
    { apply chr_eqb_neq. intros ->. apply Hno. now left. }
    rewrite Hc, andb_false_r.
    assert (Hmid : ~ In "}"%char mid) by (intros H; apply Hno; now right).
    destruct (chr_eqb c "{"); rewrite (IH _ Hmid), <- app_assoc; reflexivity.
Qed.

End Scanner.

(** ** Unmatched braces *)

(** C7. After a [{] the scanner never fails (it is a total function) and,
    as long as no [}] is read, the inside-brace flag stays true and nothing
    is split off: the flushed tokens are those of before the brace and the
    buffer takes every character, delimiters included. What follows the
    stretch without [}] is scanned from that state, and when the stretch
    reaches the end of the string, the brace being unmatched, the result is
    the tokens flushed before the brace followed by one token that holds
    the buffer, the brace and the whole remainder. *)
Theorem unmatched_brace_disables_splitting :
  forall (delimiter : option str) (pre mid : str),
    ~ In "}"%char mid ->
    let st := scan delimiter pre in
    let opened := {| separated := separated st;
                   entry := entry st ++ "{"%char :: mid;
                   inside_brace := true |} in
    scan delimiter (pre ++ "{"%char :: mid) = opened
    /\ (forall tail,
          scan delimiter (pre ++ "{"%char :: mid ++ tail)
          = scan_from delimiter opened tail)
    /\ GetT3RequestInfo (pre ++ "{"%char :: mid) delimiter
       = separated st ++ [entry st ++ "{"%char :: mid].
Proof.
  intros delimiter pre mid Hno st opened.
  assert (Hscan : scan delimiter (pre ++ "{"%char :: mid) = opened).
  { rewrite scan_app. unfold scan_from. simpl.
    unfold scan_step at 2. simpl. fold st.
    change (fold_left (scan_step delimiter) mid ?x) with (scan_from delimiter x mid).
    rewrite scan_from_inside by assumption. unfold opened. now rewrite <- app_assoc. }
  repeat split.
  - exact Hscan.
  - intros tail.
    change (pre ++ "{"%char :: mid ++ tail) with (pre ++ ("{"%char :: mid) ++ tail).
    now rewrite app_assoc, scan_app, Hscan.
  - unfold GetT3RequestInfo. rewrite Hscan. unfold finish, opened. simpl.
    rewrite length_app. simpl.
    replace (length (entry st) + S (length mid) =? 0)%nat with false;
      [reflexivity|].
    symmetry. apply Nat.eqb_neq. lia.
Qed.

Lemma unmatched_brace_disables_splitting_witness :
  GetT3RequestInfo (py "a b={1 2 c") (Some (py " ")) = [py "a"; py "b={1 2 c"].
Proof.
  assert (Hno : ~ In "}"%char (py "1 2 c")).
  { vm_compute. intros H. repeat (destruct H as [H|H]; [discriminate H|]). exact H. }
  exact (proj2 (proj2
    (unmatched_brace_disables_splitting (Some (py " ")) (py "a b=") (py "1 2 c") Hno))).
Defined.

(** ** Empty tokens *)

Section EmptyTokens.

Variable d : ascii.
Hypothesis d_not_close : d <> "}"%char.

(** A character that is outside braces for the scanner and equals the
    delimiter flushes the buffer, unless it is [}]. *)
Lemma scan_step_outside (pre : str) :
  scanned_outside (Some [d]) pre d = true ->
  scan (Some [d]) (pre ++ [d])
  = {| separated := separated (scan (Some [d]) pre) ++ [entry (scan (Some [d]) pre)];
       entry := []; inside_brace := false |}.
Proof.
  unfold scanned_outside. rewrite scan_snoc.
  destruct (scan (Some [d]) pre) as [l e b]. unfold scan_step. simpl.
  destruct (chr_eqb d "{") eqn:Ho; simpl.
  { rewrite andb_false_r. discriminate. }
  destruct (chr_eqb d "}") eqn:Hc.
  { apply chr_eqb_eq in Hc. contradiction. }
  rewrite chr_eqb_refl. destruct b; simpl; [discriminate | reflexivity].
Qed.

Lemma scanned_outside_start (pre : str) :
  scanned_outside (Some [d]) pre d = true ->
  scanned_outside (Some [d]) [] d = true.
Proof.
  unfold scanned_outside. rewrite scan_snoc.
  destruct (scan (Some [d]) pre) as [l e b]. unfold scan, scan_from, scan_step. simpl.
  destruct (chr_eqb d "{") eqn:Ho; simpl.
  { rewrite andb_false_r. discriminate. }
  destruct (chr_eqb d "}") eqn:Hc.
  { apply chr_eqb_eq in Hc. contradiction. }
  rewrite chr_eqb_refl. reflexivity.
Qed.

Lemma tokens_after_outside_delimiter (pre post : str) :
  scanned_outside (Some [d]) pre d = true ->
  GetT3RequestInfo (pre ++ d :: post) (Some [d])
  = (separated (scan (Some [d]) pre) ++ [entry (scan (Some [d]) pre)])
    ++ GetT3RequestInfo post (Some [d]).
Proof.
  intros H. unfold GetT3RequestInfo.
  change (pre ++ d :: post) with (pre ++ [d] ++ post).
  rewrite app_assoc, scan_app, (scan_step_outside pre H), scan_from_flushed.
  apply finish_prepend.
Qed.

End EmptyTokens.

(** C6, as amended. For a delimiter other than [}]: when a delimiter that
    lies outside braces is followed at once by a second delimiter, the
    second lies outside braces as well and an empty token stands between
    the token that ends at the first and the tokens of what follows the
    second; and a string that ends with a delimiter outside braces yields
    the tokens flushed so far and the buffer before that delimiter, with no
    empty token after them. *)
Theorem empty_tokens_kept_except_trailing :
  forall (d : ascii) (pre post : str),
    d <> "}"%char ->
    scanned_outside (Some [d]) pre d = true ->
    let st := scan (Some [d]) pre in
    scanned_outside (Some [d]) (pre ++ [d]) d = true
    /\ GetT3RequestInfo (pre ++ d :: d :: post) (Some [d])
       = (separated st ++ [entry st]) ++ [[]] ++ GetT3RequestInfo post (Some [d])
    /\ GetT3RequestInfo (pre ++ [d]) (Some [d]) = separated st ++ [entry st].
Proof.
  intros d pre post Hd H1 st.
  pose proof (scanned_outside_start d Hd pre H1) as H0.
  repeat split.
  - unfold scanned_outside.
    rewrite (scan_step_outside d Hd pre H1). simpl.
    rewrite scan_snoc, (scan_step_outside d Hd pre H1).
    unfold scanned_outside in H0. rewrite scan_snoc in H0.
    unfold scan_step in *. simpl in *.
    destruct (chr_eqb d "{"); [discriminate H0|].
    destruct (chr_eqb d "}"); [reflexivity|].
    rewrite chr_eqb_refl. reflexivity.
  - rewrite (tokens_after_outside_delimiter d Hd pre (d :: post) H1).
    f_equal.
    exact (tokens_after_outside_delimiter d Hd [] post H0).
  - rewrite (tokens_after_outside_delimiter d Hd pre [] H1).
    apply app_nil_r.
Qed.

Lemma empty_tokens_kept_except_trailing_witness :
  GetT3RequestInfo (py "a  b") (Some (py " ")) = [py "a"; []; py "b"]
  /\ GetT3RequestInfo (py "a ") (Some (py " ")) = [py "a"].
Proof.
  assert (Hd : " "%char <> "}"%char) by discriminate.
  assert (H1 : scanned_outside (Some (py " ")) (py "a") " " = true) by reflexivity.
  exact (proj2 (empty_tokens_kept_except_trailing " " (py "a") (py "b") Hd H1)).
Defined.

(** C6, as stated, fails when the delimiter is [}]: in the string of two
    closing braces both braces are read with the flag false before and
    after them, and neither is split off, so no empty token is produced. *)
Lemma closing_brace_delimiter_never_splits :
  scanned_outside (Some (py "}")) [] "}" = true
  /\ scanned_outside (Some (py "}")) (py "}") "}" = true
  /\ GetT3RequestInfo (py "}}") (Some (py "}")) = [py "}}"]
  /\ ~ In [] (GetT3RequestInfo (py "}}") (Some (py "}"))).
Proof.
  repeat split. intros [H|[]]. discriminate H.
Qed.

(** ** Splitting outside braces *)

Lemma flat_run_snoc (s : str) (c : ascii) :
  flat_run (s ++ [c]) = flat_step (flat_run s) c.
Proof. unfold flat_run. now rewrite fold_left_app. Qed.

Lemma depth_snoc (s : str) (c : ascii) :
  depth (s ++ [c])
  = depth s + (if chr_eqb c "{" then 1 else 0) - (if chr_eqb c "}" then 1 else 0).
Proof.
  unfold depth. rewrite !count_occ_app. simpl.
  destruct (ascii_dec c "{") as [Ho|Ho]; destruct (ascii_dec c "}") as [Hc|Hc].
  - subst c. discriminate Hc.
  - rewrite (proj2 (chr_eqb_eq _ _) Ho), (proj2 (chr_eqb_neq _ _) Hc). lia.
  - rewrite (proj2 (chr_eqb_neq _ _) Ho), (proj2 (chr_eqb_eq _ _) Hc). lia.
  - rewrite (proj2 (chr_eqb_neq _ _) Ho), (proj2 (chr_eqb_neq _ _) Hc). lia.
Qed.

(** On a string with flat braces the flag of the scanner is the state of
    the brace automaton, and the depth is 1 inside and 0 outside. *)
Lemma flat_run_flag (delimiter : option str) (s : str) (b : bool) :
  flat_run s = Some b ->
  inside_brace (scan delimiter s) = b /\ depth s = (if b then 1 else 0).
Proof.
  revert b. induction s as [|c s IH] using rev_ind; intros b.
  - cbn. intros [= <-]. split; reflexivity.
  - rewrite flat_run_snoc, scan_snoc, depth_snoc.
    destruct (flat_run s) as [b0|] eqn:E; [|discriminate].
    destruct (IH b0 eq_refl) as [Hf Hd]. rewrite Hd.
    unfold flat_step, scan_step.
    destruct (chr_eqb c "{") eqn:Ho.
    + apply chr_eqb_eq in Ho. subst c. destruct b0; [discriminate|].
      intros [= <-]. simpl. split; reflexivity.
    + destruct (chr_eqb c "}") eqn:Hc.
      * destruct b0; [|discriminate]. intros [= <-]. simpl. split; reflexivity.
      * intros [= <-]. split; [|lia].
        destruct (is_delimiter c delimiter && negb (inside_brace (scan delimiter s)));
          simpl; exact Hf.
Qed.

Lemma flat_run_prefix (s : str) (c : ascii) (b : bool) :
  flat_run (s ++ [c]) = Some b -> exists b0, flat_run s = Some b0.
Proof.
  rewrite flat_run_snoc. destruct (flat_run s) as [b0|]; [eauto | discriminate].
Qed.

(** On a string with flat braces, a character is outside braces for the
    scanner exactly when the depth is zero on both sides of it. *)
Lemma scanned_outside_depth (delimiter : option str) (pre : str) (c : ascii) (b : bool) :
  flat_run (pre ++ [c]) = Some b ->
  scanned_outside delimiter pre c = true
  <-> depth pre = 0 /\ depth (pre ++ [c]) = 0.
Proof.
  intros Hb. destruct (flat_run_prefix pre c b Hb) as [b0 Hb0].
  destruct (flat_run_flag delimiter pre b0 Hb0) as [Hf0 Hd0].
  destruct (flat_run_flag delimiter (pre ++ [c]) b Hb) as [Hf Hd].
  unfold scanned_outside. rewrite Hf0, Hf, Hd0, Hd.
  destruct b0, b; simpl; split; try discriminate; try tauto;
    intros [H1 H2]; discriminate.
Qed.

Lemma join_last (d : ascii) (l : list str) (e : str) :
  join d (l ++ [e]) = flat_map (fun p => p ++ [d]) l ++ e.
Proof.
  induction l as [|p l IH]; [reflexivity|].
  change ((p :: l) ++ [e]) with (p :: (l ++ [e])).
  simpl. destruct (l ++ [e]) eqn:E.
  - destruct l; discriminate E.
  - rewrite IH. now rewrite <- !app_assoc.
Qed.

(** The tokens with the open buffer, joined by the delimiter, give back the
    string read so far. *)
Lemma scan_join (d : ascii) (s : str) :
  join d (separated (scan (Some [d]) s) ++ [entry (scan (Some [d]) s)]) = s.
Proof.
  induction s as [|c s IH] using rev_ind; [reflexivity|].
  rewrite scan_snoc. rewrite join_last in *.
  destruct (scan (Some [d]) s) as [l e b]. simpl in *.
  unfold scan_step. simpl.
  destruct (chr_eqb c "{"); simpl; [now rewrite app_assoc, IH|].
  destruct (chr_eqb c "}"); simpl; [now rewrite app_assoc, IH|].
  destruct (chr_eqb c d) eqn:Hd; simpl.
  - apply chr_eqb_eq in Hd. subst c. destruct b; simpl.
    + now rewrite app_assoc, IH.
    + rewrite flat_map_app. simpl. now rewrite !app_nil_r, app_assoc, IH.
  - now rewrite app_assoc, IH.
Qed.

Lemma cuts_from_snoc (d : ascii) (off : nat) (l : list str) (p : str) :
  cuts_from off (l ++ [p])
  = cuts_from off l ++ [(off + length (flat_map (fun q => q ++ [d]) l) + length p)%nat].
Proof.
  revert off. induction l as [|q l IH]; intros off; simpl.
  - f_equal. lia.
  - rewrite IH. do 2 f_equal. rewrite !length_app. simpl. f_equal. lia.
Qed.

Lemma delimiter_outside_snoc (d : ascii) (s : str) (c : ascii) (i : nat) :
  delimiter_outside d (s ++ [c]) i
  <-> delimiter_outside d s i
      \/ (i = length s /\ c = d /\ depth s = 0 /\ depth (s ++ [c]) = 0).
Proof.
  unfold delimiter_outside, outside_at.
  destruct (Nat.lt_trichotomy i (length s)) as [Hlt|[Heq|Hgt]].
  - rewrite nth_error_app1 by exact Hlt.
    rewrite !firstn_app.
    replace (i - length s)%nat with 0%nat by lia.
    replace (S i - length s)%nat with 0%nat by lia.
    simpl. rewrite !app_nil_r. split; [now left|].
    intros [H|[H _]]; [exact H | lia].
  - subst i. rewrite nth_error_app2 by lia. rewrite Nat.sub_diag. simpl.
    rewrite !firstn_app. rewrite Nat.sub_diag.
    replace (S (length s) - length s)%nat with 1%nat by lia.
    rewrite (firstn_all2 (n := length s) s) by lia.
    rewrite (firstn_all2 (n := S (length s)) s) by lia.
    simpl. rewrite app_nil_r.
    assert (Hn : nth_error s (length s) = None) by (apply nth_error_None; lia).
    rewrite Hn. split.
    + intros [[= ->] [H1 H2]]. right. auto.
    + intros [[H _]|[_ [-> [H1 H2]]]]; [discriminate H | auto].
  - assert (Hn : nth_error (s ++ [c]) i = None).
    { apply nth_error_None. rewrite length_app. simpl. lia. }
    assert (Hn' : nth_error s i = None) by (apply nth_error_None; lia).
    rewrite Hn, Hn'. split.
    + intros [H _]. discriminate H.
    + intros [[H _]|[H _]]; [discriminate H | lia].
Qed.

(** The tokens flushed so far end exactly at the delimiters outside
    braces. *)
Lemma scan_cuts (d : ascii) (s : str) (b : bool) :
  flat_run s = Some b ->
  forall i, In i (cuts_from 0 (separated (scan (Some [d]) s)))
            <-> delimiter_outside d s i.
Proof.
  revert b. induction s as [|c s IH] using rev_ind; intros b Hb i.
  - cbn. unfold delimiter_outside. split; [intros [] | intros [H _]].
    destruct i; discriminate H.
  - destruct (flat_run_prefix s c b Hb) as [b0 Hb0].
    specialize (IH b0 Hb0).
    destruct (flat_run_flag (Some [d]) s b0 Hb0) as [Hflag Hdepth].
    destruct (flat_run_flag (Some [d]) (s ++ [c]) b Hb) as [_ Hdepth'].
    rewrite delimiter_outside_snoc, <- IH.
    pose proof (scan_join d s) as Hjoin. rewrite join_last in Hjoin.
    rewrite flat_run_snoc, Hb0 in Hb. rewrite depth_snoc in Hdepth'.
    rewrite depth_snoc, scan_snoc.
    destruct (scan (Some [d]) s) as [l e fl]. simpl in *. subst fl.
    unfold scan_step, flat_step in *. simpl in *.
    destruct (chr_eqb c "{") eqn:Ho; simpl.
    { apply chr_eqb_eq in Ho. subst c. simpl in *.
      destruct b0; [discriminate Hb|]. split; [now left|].
      intros [H|[_ [_ [H1 H2]]]]; [exact H | lia]. }
    destruct (chr_eqb c "}") eqn:Hc; simpl.
    { destruct b0; [|discriminate Hb]. split; [now left|].
      intros [H|[_ [_ [H1 H2]]]]; [exact H | lia]. }
    destruct (chr_eqb c d) eqn:Hd; simpl.
    + apply chr_eqb_eq in Hd. subst c. destruct b0; simpl.
      * split; [now left|]. intros [H|[_ [_ [H1 H2]]]]; [exact H | lia].
      * rewrite (cuts_from_snoc d), in_app_iff. simpl.
        assert (Hlen : length s = (length (flat_map (fun q => q ++ [d]) l) + length e)%nat).
        { rewrite <- Hjoin at 1. apply length_app. }
        split.
        -- intros [H|[H|[]]]; [now left|]. right. repeat split; lia.
        -- intros [H|[H _]]; [now left|]. right. left. lia.
    + apply chr_eqb_neq in Hd. split; [now left|].
      intros [H|[_ [H _]]]; [exact H | contradiction].
Qed.

Lemma finish_drop_trailing_empty (st : scan_state) :
  finish st = drop_trailing_empty (separated st ++ [entry st]).
Proof.
  unfold finish, drop_trailing_empty. rewrite rev_app_distr. simpl.
  destruct (entry st); simpl; [now rewrite removelast_last | reflexivity].
Qed.

(** C2. On a string whose braces are balanced and not nested, and for any
    one-character delimiter, the tokens are the pieces of the string cut at
    exactly the occurrences of the delimiter outside braces: joining the
    pieces with the delimiter gives the string back, a position is a cut if
    and only if it holds the delimiter outside braces, and the result is
    these pieces without a last empty piece. The sample string of three
    fields is split into its three fields. *)
Theorem tokenize_splits_outside_braces :
  (forall (s : str) (d : ascii),
     balanced_flat s ->
     exists pieces : list str,
       join d pieces = s
       /\ (forall i, In i (cut_positions pieces) <-> delimiter_outside d s i)
       /\ GetT3RequestInfo s (Some [d]) = drop_trailing_empty pieces)
  /\ GetT3RequestInfo (py "a=1 b={2 3 4} c=5") (Some (py " "))
     = [py "a=1"; py "b={2 3 4}"; py "c=5"].
Proof.
  split; [|reflexivity].
  intros s d Hs.
  exists (separated (scan (Some [d]) s) ++ [entry (scan (Some [d]) s)]).
  split; [apply scan_join|]. split.
  - intros i. unfold cut_positions. rewrite removelast_last.
    exact (scan_cuts d s false Hs i).
  - apply finish_drop_trailing_empty.
Qed.

Lemma tokenize_splits_outside_braces_witness :
  exists pieces : list str,
    join " " pieces = py "a {b c} "
    /\ (forall i, In i (cut_positions pieces) <-> delimiter_outside " " (py "a {b c} ") i)
    /\ GetT3RequestInfo (py "a {b c} ") (Some [" "%char]) = drop_trailing_empty pieces.
Proof.
  apply (proj1 tokenize_splits_outside_braces (py "a {b c} ") " "%char).
  reflexivity.
Defined.

(** ** The decoder *)

Lemma split1_first (sep : ascii) (key rest : str) :
  contains sep key = false ->
  split1 sep (key ++ sep :: rest) = [key; rest].
Proof.
  induction key as [|c key IH]; simpl.
  - intros _. now rewrite chr_eqb_refl.
  - intros H. apply orb_false_iff in H as [Hc Hk].
    rewrite Ascii.eqb_sym in Hc. fold (chr_eqb c sep) in Hc.
    rewrite Hc, (IH Hk). reflexivity.
Qed.

Lemma contains_middle (sep : ascii) (key rest : str) :
  contains sep (key ++ sep :: rest) = true.
Proof.
  unfold contains. rewrite existsb_app. simpl. rewrite chr_eqb_refl.
  now rewrite orb_true_r.
Qed.

(** A string that contains the separator is cut in one way only at its
    first occurrence. *)
Lemma contains_first (sep : ascii) (s : str) :
  contains sep s = true ->
  exists key rest, s = key ++ sep :: rest /\ contains sep key = false.
Proof.
  induction s as [|c s IH]; simpl; [discriminate|].
  destruct (chr_eqb sep c) eqn:Hc; simpl.
  - intros _. apply chr_eqb_eq in Hc. subst c. now exists [], s.
  - intros H. destruct (IH H) as [key [rest [-> Hk]]].
    exists (c :: key), rest. split; [reflexivity|]. simpl. now rewrite Hc.
Qed.

(** The loop body on a token cut at its first [=]. *)
Lemma organize_step_first (info : gmap str pyvalue) (key rest : str) :
  contains "=" key = false ->
  organize_step info (key ++ "="%char :: rest)
  = (let! v := decode_value (strip rest) in Ok (<[key := v]> info)).
Proof.
  intros Hk. unfold organize_step.
  now rewrite contains_middle, (split1_first _ _ _ Hk).
Qed.

(** C4, as amended. A token that contains [=] is cut at its first [=]: the
    key is the text before it, exactly as written (it is not trimmed and it
    contains no [=]), the value is decoded from the trimmed text after it,
    which may contain further [=], and the dictionary is updated at that
    key. *)
Theorem key_is_left_of_first_equals :
  forall (info : gmap str pyvalue) (token : str),
    contains "=" token = true ->
    exists key rest,
      token = key ++ "="%char :: rest
      /\ contains "=" key = false
      /\ organize_step info token
         = (let! v := decode_value (strip rest) in Ok (<[key := v]> info)).
Proof.
  intros info token H.
  destruct (contains_first _ _ H) as [key [rest [-> Hk]]].
  exists key, rest. repeat split; [exact Hk | now apply organize_step_first].
Qed.

Lemma key_is_left_of_first_equals_witness :
  exists key rest,
    py " k=5" = key ++ "="%char :: rest
    /\ contains "=" key = false
    /\ organize_step ∅ (py " k=5")
       = (let! v := decode_value (strip rest) in Ok (<[key := v]> ∅)).
Proof.
  apply key_is_left_of_first_equals. reflexivity.
Defined.

(** C4, as stated, fails: the key is stored with its surrounding
    whitespace, and the trimmed key is not in the dictionary. *)
Lemma key_is_not_trimmed :
  exists data,
    OrganizeT3Info [py " k=5"] = Ok data
    /\ data !! py " k" = Some (VInt 5)
    /\ strip (py " k") = py "k"
    /\ data !! py "k" = None.
Proof.
  eexists. split; [reflexivity|]. repeat split.
Qed.

(** ** Numbers *)

(** A literal that [float] rejects is a [ValueError]. *)
Lemma float_of_str_raises (s : str) (e : pyerr) :
  float_of_str s = Raise e -> e = ValueError.
Proof.
  unfold float_of_str.
  repeat match goal with
         | |- context [match ?x with _ => _ end] => destruct x
         end; congruence.
Qed.

Lemma int_of_float_truncates (neg : bool) (m e : Z) :
  int_of_float (FFinite neg m e) = Ok (truncate (float_fraction neg m e)).
Proof.
  unfold int_of_float, truncate, float_fraction. simpl. f_equal.
  destruct (e <? 0) eqn:He.
  - apply Z.ltb_lt in He.
    rewrite (Z.max_r e 0), (Z.max_l (- e) 0) by lia.
    now rewrite Z.pow_0_r, Z.mul_1_r.
  - apply Z.ltb_ge in He.
    rewrite (Z.max_l e 0), (Z.max_r (- e) 0) by lia.
    now rewrite Z.pow_0_r, Z.quot_1_r.
Qed.

(** C5, as amended. A token whose trimmed value is neither enclosed in
    braces nor in quotes is read as a double. When the literal is rejected
    the decoder raises [ValueError]; when it denotes a finite double the
    key is bound to that double truncated toward zero; when it denotes an
    infinity the conversion to an integer raises [OverflowError], and when
    it denotes a NaN it raises [ValueError]. The tokens [x=2.3e-8] and
    [x=5] bind [x] to 0 and to 5. *)
Theorem number_is_float_then_truncated :
  (forall (info : gmap str pyvalue) (key rest : str),
     contains "=" key = false ->
     startswith (strip rest) (py "{") && endswith (strip rest) (py "}") = false ->
     startswith (strip rest) ["034"%char] && endswith (strip rest) ["034"%char] = false ->
     organize_step info (key ++ "="%char :: rest)
     = match float_of_str (strip rest) with
       | Raise _ => Raise ValueError
       | Ok (FFinite neg m e) =>
           Ok (<[key := VInt (truncate (float_fraction neg m e))]> info)
       | Ok (FInf _) => Raise OverflowError
       | Ok FNaN => Raise ValueError
       end)
  /\ OrganizeT3Info [py "x=2.3e-8"] = Ok {[ py "x" := VInt 0 ]}
  /\ OrganizeT3Info [py "x=5"] = Ok {[ py "x" := VInt 5 ]}.
Proof.
  split; [|split; reflexivity].
  intros info key rest Hk Hb Hq.
  rewrite (organize_step_first info key rest Hk).
  unfold decode_value. rewrite Hb, Hq.
  destruct (float_of_str (strip rest)) as [[neg m e| |]|err] eqn:E; cbn [bind].
  - now rewrite int_of_float_truncates.
  - reflexivity.
  - reflexivity.
  - now rewrite (float_of_str_raises _ _ E).
Qed.

Lemma number_is_float_then_truncated_witness :
  organize_step ∅ (py "x=" ++ py " -7.9e0 ") = Ok {[ py "x" := VInt (-7) ]}.
Proof.
  exact (proj1 number_is_float_then_truncated ∅ (py "x") (py " -7.9e0 ")
           eq_refl eq_refl eq_refl).
Defined.

(** C5, as stated, fails: the literals [nan] and [inf] are accepted by
    [float], and still the decoder raises, the same [ValueError] as for a
    rejected literal in the first case and an [OverflowError] in the
    second, so that no integer is produced. *)
Lemma nan_and_inf_parse_but_raise :
  float_of_str (py "nan") = Ok FNaN
  /\ OrganizeT3Info [py "x=nan"] = Raise ValueError
  /\ float_of_str (py "inf") = Ok (FInf false)
  /\ OrganizeT3Info [py "x=inf"] = Raise OverflowError.
Proof. repeat split. Qed.

(** ** Empty lists *)

Lemma lstrip_all (p : ascii -> bool) (s : str) :
  forallb p s = true -> lstrip_by p s = [].
Proof.
  induction s as [|c s IH]; simpl; [reflexivity|].
  intros H. apply andb_true_iff in H as [Hc Hs]. rewrite Hc. now apply IH.
Qed.

Lemma strip_all_space (ws : str) :
  forallb is_space ws = true -> strip ws = [].
Proof.
  intros H. unfold strip, strip_by. now rewrite (lstrip_all _ _ H).
Qed.

(** What the list branch does to braces around whitespace. *)
Lemma decode_value_blank_braces (ws : str) :
  forallb is_space ws = true ->
  decode_value ("{"%char :: ws ++ ["}"%char]) = Raise ValueError.
Proof.
  intros H. unfold decode_value.
  assert (Hs : startswith ("{"%char :: ws ++ ["}"%char]) (py "{") = true) by reflexivity.
  assert (He : endswith ("{"%char :: ws ++ ["}"%char]) (py "}") = true).
  { unfold endswith. change ("{"%char :: ws ++ ["}"%char]) with (("{"%char :: ws) ++ ["}"%char]).
    rewrite rev_app_distr. reflexivity. }
  rewrite Hs, He. simpl andb. cbv iota.
  unfold slice_1_m1. simpl tl. rewrite removelast_last, (strip_all_space _ H).
  reflexivity.
Qed.

(** An exception in the loop of the decoder ends it. *)
Lemma organize_from_raises (tok : str) (pre post : list str) :
  (forall info, exists e, organize_step info tok = Raise e) ->
  forall info, exists e, organize_from info (pre ++ tok :: post) = Raise e.
Proof.
  intros Htok. induction pre as [|p pre IH]; intros info; simpl.
  - destruct (Htok info) as [e ->]. now exists e.
  - destruct (organize_step info p) as [info'|e]; simpl; [apply IH | now exists e].
Qed.

(** C9. A token whose trimmed value is a pair of braces around nothing but
    whitespace does not decode to an empty list: the text between the
    braces trims to the empty string, its split is one empty piece, and
    [int] rejects it with a [ValueError]; a request that holds such a token
    is never decoded. *)
Theorem empty_braces_raise :
  forall (key rest ws : str),
    contains "=" key = false ->
    strip rest = "{"%char :: ws ++ ["}"%char] ->
    forallb is_space ws = true ->
    split " " (strip (slice_1_m1 (strip rest))) = [[]]
    /\ int_of_str [] = Raise ValueError
    /\ (forall info, organize_step info (key ++ "="%char :: rest) = Raise ValueError)
    /\ (forall pre post, exists e,
          OrganizeT3Info (pre ++ (key ++ "="%char :: rest) :: post) = Raise e).
Proof.
  intros key rest ws Hk Hv Hws.
  assert (Hstep : forall info,
            organize_step info (key ++ "="%char :: rest) = Raise ValueError).
  { intros info. rewrite (organize_step_first info key rest Hk), Hv.
    now rewrite (decode_value_blank_braces ws Hws). }
  repeat split.
  - rewrite Hv. unfold slice_1_m1. simpl tl.
    now rewrite removelast_last, (strip_all_space _ Hws).
  - exact Hstep.
  - intros pre post. apply organize_from_raises.
    intros info. exists ValueError. apply Hstep.
Qed.

Lemma empty_braces_raise_witness :
  (forall info, organize_step info (py "offsets={}") = Raise ValueError)
  /\ (forall info, organize_step info (py "window= { } ") = Raise ValueError).
Proof.
  split.
  - exact (proj1 (proj2 (proj2
      (empty_braces_raise (py "offsets") (py "{}") [] eq_refl eq_refl eq_refl)))).
  - exact (proj1 (proj2 (proj2
      (empty_braces_raise (py "window") (py " { } ") (py " ") eq_refl eq_refl eq_refl)))).
Defined.

(** ** Selection of the station *)

Lemma index_from_first (l : list Z) (x : Z) (i k : nat) :
  first_index l x i -> index_from k l x = Some (k + i)%nat.
Proof.
  revert i k. induction l as [|y l IH]; intros i k [Hi Hfirst].
  - destruct i; discriminate Hi.
  - destruct i as [|i]; simpl in *.
    + injection Hi as ->. rewrite Z.eqb_refl. f_equal. lia.
    + destruct (y =? x) eqn:E.
      * apply Z.eqb_eq in E. subst y. exfalso. apply (Hfirst 0%nat); [lia | reflexivity].
      * rewrite (IH i (S k)); [f_equal; lia|].
        split; [exact Hi|]. intros j Hj. apply (Hfirst (S j)). lia.
Qed.

Section Selection.

Variables (data : gmap str pyvalue) (addresses offsets window : list Z).
Variables (LetyID : Z) (i : nat).
Hypothesis has_addresses : data !! py "addresses" = Some (VList addresses).
Hypothesis has_offsets : data !! py "offsets" = Some (VList offsets).
Hypothesis has_window : data !! py "window" = Some (VList window).

(** Without the station in [addresses], [index] raises. *)
Lemma lety_data_absent :
  index_from 0 addresses LetyID = None ->
  lety_data data LetyID = Raise ValueError.
Proof.
  intros H. unfold lety_data, getitem. rewrite has_addresses.
  cbn [bind value_index]. now rewrite H.
Qed.

Hypothesis found : first_index addresses LetyID i.

Lemma lety_data_found :
  lety_data data LetyID
  = (let! offset := subscript (VList offsets) i in
     let! w := subscript (VList window) i in
     let! gpsSec := getitem data (py "refSecond") in
     let! gpsMicroSec := getitem data (py "refuSecond") in
     Ok [gpsSec; gpsMicroSec; offset; w]).
Proof.
  unfold lety_data. unfold getitem at 1. rewrite has_addresses.
  cbn [bind value_index].
  rewrite (index_from_first _ _ _ 0%nat found). cbn [bind Nat.add].
  unfold getitem at 1. rewrite has_offsets. cbn [bind].
  destruct (subscript (VList offsets) i); [|reflexivity].
  cbn [bind]. unfold getitem at 1. rewrite has_window. reflexivity.
Qed.

Lemma lety_data_projects (refSecond refuSecond : pyvalue) (o w : Z) :
  data !! py "refSecond" = Some refSecond ->
  data !! py "refuSecond" = Some refuSecond ->
  nth_error offsets i = Some o -> nth_error window i = Some w ->
  lety_data data LetyID = Ok [refSecond; refuSecond; VInt o; VInt w].
Proof.
  intros Hs Hu Ho Hw. rewrite lety_data_found. unfold getitem, subscript.
  now rewrite Ho, Hw, Hs, Hu.
Qed.

Lemma lety_data_short :
  (length offsets <= i)%nat \/ (length window <= i)%nat ->
  lety_data data LetyID = Raise IndexError.
Proof.
  intros H. rewrite lety_data_found. unfold subscript.
  destruct (nth_error offsets i) as [o|] eqn:Eo; cbn [bind].
  - destruct H as [H|H].
    + apply nth_error_None in H. congruence.
    + apply nth_error_None in H. now rewrite H.
  - reflexivity.
Qed.

End Selection.

(** C3, as amended. When the decoded record holds the target ID in
    [addresses], with [i] the first index at which it occurs, and [offsets]
    and [window] are long enough, the projection returns [refSecond],
    [refuSecond], [offsets[i]] and [window[i]]; on the sample record the
    result is 1000, 200, 2, 5. *)
Theorem projection_at_first_index :
  (forall (t3info : list str) (data : gmap str pyvalue)
          (addresses offsets window : list Z) (refSecond refuSecond : pyvalue)
          (LetyID : Z) (i : nat) (o w : Z),
     OrganizeT3Info t3info = Ok data ->
     selected_fields data addresses offsets window refSecond refuSecond ->
     first_index addresses LetyID i ->
     nth_error offsets i = Some o ->
     nth_error window i = Some w ->
     GetLetyInfo t3info LetyID = Ok [refSecond; refuSecond; VInt o; VInt w])
  /\ GetLetyInfo [py "addresses={12 97 33}"; py "offsets={1 2 3}";
                  py "window={0 5 0}"; py "refSecond=1000"; py "refuSecond=200"] 97
     = Ok [VInt 1000; VInt 200; VInt 2; VInt 5].
Proof.
  split; [|reflexivity].
  intros t3info data addresses offsets window refSecond refuSecond LetyID i o w
         Hdata Hfields Hfound Ho Hw.
  unfold GetLetyInfo. rewrite Hdata. cbn [bind].
  destruct Hfields as [Ha Hof Hwi Hs Hu].
  exact (lety_data_projects _ _ _ _ _ _ Ha Hof Hwi Hfound _ _ o w Hs Hu Ho Hw).
Qed.

Lemma projection_at_first_index_witness :
  GetLetyInfo [py "addresses={33 97 97}"; py "offsets={1 2 3}";
               py "window={0 5 6}"; py "refSecond=7"; py "refuSecond=8"] 97
  = Ok [VInt 7; VInt 8; VInt 2; VInt 5].
Proof.
  refine (proj1 projection_at_first_index
            [py "addresses={33 97 97}"; py "offsets={1 2 3}";
             py "window={0 5 6}"; py "refSecond=7"; py "refuSecond=8"]
            _ [33; 97; 97] [1; 2; 3] [0; 5; 6]
            (VInt 7) (VInt 8) 97 1%nat 2 5 eq_refl _ _ eq_refl eq_refl).
  - split; reflexivity.
  - split; [reflexivity|]. intros [|j] Hj; [discriminate | lia].
Defined.

(** C3, as stated, fails when the target also occurs before index [i]: the
    record lists the station at indices 0 and 1, and the projection returns
    the offset and window of index 0, not those of index 1. *)
Lemma projection_ignores_later_occurrence :
  exists data,
    OrganizeT3Info [py "addresses={97 97}"; py "offsets={1 2}"; py "window={0 5}";
                    py "refSecond=1000"; py "refuSecond=200"] = Ok data
    /\ selected_fields data [97; 97] [1; 2] [0; 5] (VInt 1000) (VInt 200)
    /\ nth_error [97; 97] 1 = Some 97
    /\ nth_error [1; 2] 1 = Some 2
    /\ nth_error [0; 5] 1 = Some 5
    /\ GetLetyInfo [py "addresses={97 97}"; py "offsets={1 2}"; py "window={0 5}";
                    py "refSecond=1000"; py "refuSecond=200"] 97
       = Ok [VInt 1000; VInt 200; VInt 1; VInt 0].
Proof.
  eexists. split; [reflexivity|]. repeat split.
Qed.

(** ** The loop over the lines *)

Lemma first_addresses_none (t3info : list str) :
  (forall tok, In tok t3info -> startswith tok (py "addresses=") = false) ->
  first_addresses t3info = [].
Proof.
  induction t3info as [|tok rest IH]; intros H; cbn [first_addresses];
    [reflexivity|].
  rewrite (H tok) by now left. apply IH. intros t Ht. apply H. now right.
Qed.

(** An eligible line hands its column 4 to the selection. *)
Lemma process_line_eligible (line : str) (LetyID : Z) :
  length (split "|" (strip line)) = 6%nat ->
  In (py "IkT3") (split "|" (strip line)) ->
  process_line line LetyID = process_request (nth 4 (split "|" (strip line)) []) LetyID.
Proof.
  intros Hlen Hin. unfold process_line.
  rewrite Hlen, (proj2 (str_in_In _ _) Hin). cbn [negb Nat.eqb].
  unfold item.
  destruct (split "|" (strip line)) as [|c0 [|c1 [|c2 [|c3 [|c4 [|c5 [|c6 cols]]]]]]];
    try discriminate Hlen.
  reflexivity.
Qed.

(** A request that passes the test of lines 179-184 is projected, and an
    exception of the projection is the outcome of the line. *)
Lemma process_request_listed (t3string : str) (LetyID : Z) (e : pyerr) :
  listed (GetT3RequestInfo t3string (Some (py " "))) LetyID = true ->
  GetLetyInfo (GetT3RequestInfo t3string (Some (py " "))) LetyID = Raise e ->
  process_request t3string LetyID = Failed e.
Proof.
  unfold listed, process_request. intros Hl He.
  destruct (first_addresses (GetT3RequestInfo t3string (Some (py " ")))) as [|c entry] eqn:E.
  - discriminate Hl.
  - cbn [str_eqb].
    destruct (item (split "=" (c :: entry)) 1) as [field|err]; [|discriminate Hl].
    rewrite Hl, He. reflexivity.
Qed.

Lemma startswith_app (s prefix : str) :
  startswith s prefix = true -> exists rest, s = prefix ++ rest.
Proof.
  revert s. induction prefix as [|p prefix IH]; intros s; simpl.
  - intros _. now exists s.
  - destruct s as [|c s]; [discriminate|]. intros H.
    apply andb_true_iff in H as [Hc Hs]. apply chr_eqb_eq in Hc. subst c.
    destruct (IH s Hs) as [rest ->]. now exists rest.
Qed.

Lemma first_addresses_startswith (t3info : list str) :
  first_addresses t3info <> [] ->
  startswith (first_addresses t3info) (py "addresses=") = true.
Proof.
  induction t3info as [|tok rest IH]; cbn [first_addresses]; [congruence|].
  destruct (startswith tok (py "addresses=")) eqn:E; [intros _; exact E | exact IH].
Qed.

Lemma split_nonempty (sep : ascii) (s : str) : split sep s <> [].
Proof.
  destruct s as [|c s]; simpl; [discriminate|].
  destruct (chr_eqb c sep); [discriminate|]. destruct (split sep s); discriminate.
Qed.

(** The test of lines 179-184 never raises: the token it reads has a
    second piece. A request that does not pass it is skipped. *)
Lemma process_request_not_listed (t3string : str) (LetyID : Z) :
  listed (GetT3RequestInfo t3string (Some (py " "))) LetyID = false ->
  process_request t3string LetyID = Skipped.
Proof.
  unfold listed, process_request.
  pose proof (first_addresses_startswith (GetT3RequestInfo t3string (Some (py " ")))) as Hs.
  destruct (first_addresses (GetT3RequestInfo t3string (Some (py " ")))) as [|c entry] eqn:E;
    [reflexivity|].
  destruct (startswith_app _ _ (Hs ltac:(discriminate))) as [rest Hrest].
  rewrite Hrest. cbn [str_eqb py list_ascii_of_string app].
  assert (Hsplit : split "=" (py "addresses=" ++ rest)
                   = py "addresses" :: split "=" rest) by reflexivity.
  cbv [py list_ascii_of_string app] in Hsplit. rewrite Hsplit.
  pose proof (split_nonempty "=" rest) as Hne.
  destruct (split "=" rest) as [|field pieces]; [contradiction|].
  cbn [item nth_error]. intros ->. reflexivity.
Qed.

(** C8, as amended. When the decoded record holds the target ID in
    [addresses], with [i] the first index at which it occurs, and [offsets]
    or [window] has no element at index [i], the projection raises
    [IndexError]. Nothing catches it: on an eligible line whose request
    passes the test of the loop, the run stops at that line with this
    exception, and neither this line nor a later one writes a record. *)
Theorem short_offsets_or_window_abort :
  forall (t3info : list str) (data : gmap str pyvalue)
         (addresses offsets window : list Z) (LetyID : Z) (i : nat),
    OrganizeT3Info t3info = Ok data ->
    data !! py "addresses" = Some (VList addresses) ->
    data !! py "offsets" = Some (VList offsets) ->
    data !! py "window" = Some (VList window) ->
    first_index addresses LetyID i ->
    (length offsets <= i)%nat \/ (length window <= i)%nat ->
    GetLetyInfo t3info LetyID = Raise IndexError
    /\ (forall (line : str) (rest out : list str),
          length (split "|" (strip line)) = 6%nat ->
          In (py "IkT3") (split "|" (strip line)) ->
          GetT3RequestInfo (nth 4 (split "|" (strip line)) []) (Some (py " ")) = t3info ->
          listed t3info LetyID = true ->
          process_lines (line :: rest) LetyID out
          = {| written := out; raised := Some IndexError |}).
Proof.
  intros t3info data addresses offsets window LetyID i
         Hdata Ha Ho Hw Hfound Hshort.
  assert (Hget : GetLetyInfo t3info LetyID = Raise IndexError).
  { unfold GetLetyInfo. rewrite Hdata. cbn [bind].
    exact (lety_data_short _ _ _ _ _ _ Ha Ho Hw Hfound Hshort). }
  split; [exact Hget|].
  intros line rest out Hlen Hin Htok Hlisted.
  cbn [process_lines]. rewrite (process_line_eligible line LetyID Hlen Hin).
  rewrite (process_request_listed _ LetyID IndexError); [reflexivity | |];
    rewrite Htok; assumption.
Qed.

Lemma short_offsets_or_window_abort_witness :
  process_lines
    [py "t|IkT3|a|b|addresses={12 97} offsets={4} window={0 5} refSecond=1 refuSecond=2|c";
     py "t|IkT3|a|b|addresses={97} offsets={4} window={0} refSecond=1 refuSecond=2|c"]
    97 []
  = {| written := []; raised := Some IndexError |}.
Proof.
  refine (proj2 (short_offsets_or_window_abort
            [py "addresses={12 97}"; py "offsets={4}"; py "window={0 5}";
             py "refSecond=1"; py "refuSecond=2"]
            _ [12; 97] [4] [0; 5] 97 1%nat eq_refl eq_refl eq_refl eq_refl _ _)
          (py "t|IkT3|a|b|addresses={12 97} offsets={4} window={0 5} refSecond=1 refuSecond=2|c")
          [py "t|IkT3|a|b|addresses={97} offsets={4} window={0} refSecond=1 refuSecond=2|c"]
          [] eq_refl _ eq_refl eq_refl).
  - split; [reflexivity|]. intros [|j] Hj; [discriminate | lia].
  - left. simpl. lia.
  - vm_compute. tauto.
Defined.

(** C8, as stated, fails when the target also occurs before index [i]: the
    station is listed at indices 0 and 1, [offsets] and [window] have one
    element each, and the line writes the record of index 0 instead of
    raising. *)
Lemma short_offsets_pass_at_earlier_occurrence :
  exists data,
    OrganizeT3Info [py "addresses={97 97}"; py "offsets={5}"; py "window={0}";
                    py "refSecond=1"; py "refuSecond=2"] = Ok data
    /\ data !! py "addresses" = Some (VList [97; 97])
    /\ data !! py "offsets" = Some (VList [5])
    /\ data !! py "window" = Some (VList [0])
    /\ nth_error [97; 97] 1 = Some 97
    /\ (length [5] < 1 + 1)%nat
    /\ GetLetyInfo [py "addresses={97 97}"; py "offsets={5}"; py "window={0}";
                    py "refSecond=1"; py "refuSecond=2"] 97
       = Ok [VInt 1; VInt 2; VInt 5; VInt 0]
    /\ process_line
         (py "t|IkT3|a|b|addresses={97 97} offsets={5} window={0} refSecond=1 refuSecond=2|c")
         97
       = Written (py "1, 2, 5, 0" ++ ["010"%char]).
Proof.
  eexists. split; [reflexivity|]. repeat split. simpl. lia.
Qed.

(** C10. An eligible line (six columns, one of them the marker [IkT3])
    whose request has no token that starts with [addresses=] is skipped:
    it writes nothing and raises nothing, and the loop goes on with the
    next line. *)
Theorem no_addresses_token_skips :
  forall (line : str) (LetyID : Z),
    length (split "|" (strip line)) = 6%nat ->
    In (py "IkT3") (split "|" (strip line)) ->
    (forall tok,
       In tok (GetT3RequestInfo (nth 4 (split "|" (strip line)) []) (Some (py " "))) ->
       startswith tok (py "addresses=") = false) ->
    process_line line LetyID = Skipped
    /\ forall rest out,
         process_lines (line :: rest) LetyID out = process_lines rest LetyID out.
Proof.
  intros line LetyID Hlen Hin Hno.
  assert (Hskip : process_line line LetyID = Skipped).
  { rewrite (process_line_eligible line LetyID Hlen Hin).
    unfold process_request. now rewrite (first_addresses_none _ Hno). }
  split; [exact Hskip|].
  intros rest out. cbn [process_lines]. now rewrite Hskip.
Qed.

Lemma no_addresses_token_skips_witness :
  process_line (py "t|IkT3|a|b|offsets={4} window={0} refSecond=1 refuSecond=2|c") 97
  = Skipped.
Proof.
  refine (proj1 (no_addresses_token_skips
            (py "t|IkT3|a|b|offsets={4} window={0} refSecond=1 refuSecond=2|c")
            97 eq_refl _ _)).
  - vm_compute. tauto.
  - vm_compute. intros tok H.
    repeat (destruct H as [<-|H]; [reflexivity|]). destruct H.
Defined.

(** C1. The line below is eligible, its request decodes, and the decoded
    [addresses] is the list of the single station 12, which does not hold
    97; yet the line is not skipped: the test of the loop reads the first
    [addresses=] token, where 97 is listed, the projection reads the
    dictionary, where the last one has overwritten it, and [index] raises
    [ValueError], which ends the run. *)
Lemma duplicate_addresses_abort :
  let t3string :=
    py "addresses={97} addresses={12} offsets={7} window={0} refSecond=555 refuSecond=10" in
  let line := py "t|IkT3|a|b|" ++ t3string ++ py "|c" in
  (exists data,
     OrganizeT3Info (GetT3RequestInfo t3string (Some (py " "))) = Ok data
     /\ data !! py "addresses" = Some (VList [12]))
  /\ index_from 0 [12] 97 = None
  /\ process_line line 97 = Failed ValueError
  /\ process_lines [line] 97 [] = {| written := []; raised := Some ValueError |}.
Proof.
  split; [eexists; split; reflexivity|]. repeat split.
Qed.

(** ** A whole run *)

(** A first line with the wrong number of columns, then a request that
    lists station 97 with offset 7 and window 0: the output is the header
    and one record. *)
Example two_line_log :
  ParseIkLog (py "/data/IkLog_2021_03_04.log") (py "/out")
    [py "not|a|request" ++ ["010"%char];
     py "t|IkT3|a|b|addresses={12 97} offsets={3 7} window={9 0} refSecond=555 refuSecond=10|c"
       ++ ["010"%char]]
    97
  = Ok (py "/out/LetyT3Requests_2021_03_04.log.txt",
        {| written := [py "#gpsSec, gpsMicroSec, offset, window" ++ ["010"%char];
                       py "555, 10, 7, 0" ++ ["010"%char]];
           raised := None |}).
Proof. reflexivity. Qed.

(** * Further properties *)

(** ** The tokenizer *)

Lemma flat_map_join (d : ascii) (l : list str) :
  l <> [] -> flat_map (fun p => p ++ [d]) l = join d l ++ [d].
Proof.
  intros Hl. destruct (exists_last Hl) as [l' [e ->]].
  rewrite flat_map_app, join_last. simpl. now rewrite app_nil_r, app_assoc.
Qed.

(** X1. Joining the tokens with the delimiter gives the string back, up to
    one delimiter at its very end: the tokenizer loses or changes no other
    character, whatever the braces. *)
Theorem tokens_rejoin :
  forall (s : str) (d : ascii),
    join d (GetT3RequestInfo s (Some [d])) = s
    \/ join d (GetT3RequestInfo s (Some [d])) ++ [d] = s.
Proof.
  intros s d. unfold GetT3RequestInfo, finish.
  pose proof (scan_join d s) as H. rewrite join_last in H.
  destruct (scan (Some [d]) s) as [l e b]. simpl in *.
  destruct e as [|c e]; simpl.
  - destruct l as [|p l].
    + left. simpl in H. now rewrite <- H.
    + right. rewrite <- (flat_map_join d (p :: l)) by discriminate.
      now rewrite app_nil_r in H.
  - left. now rewrite join_last.
Qed.

(** X2. With the default delimiter [None], or a delimiter that is not one
    character long, nothing is ever split: the result is the whole string
    as a single token, and no token at all for the empty string. *)
Theorem no_delimiter_no_split :
  forall (s : str) (delimiter : option str),
    (forall d, delimiter <> Some [d]) ->
    GetT3RequestInfo s delimiter = match s with [] => [] | _ => [s] end.
Proof.
  intros s delimiter Hd.
  assert (Hnever : forall c, is_delimiter c delimiter = false).
  { intros c. destruct delimiter as [[|d [|d' r]]|]; try reflexivity.
    exfalso. now apply (Hd d). }
  assert (Hscan : separated (scan delimiter s) = [] /\ entry (scan delimiter s) = s).
  { induction s as [|c s IH] using rev_ind; [now split|].
    rewrite scan_snoc. destruct IH as [Hs He].
    unfold scan_step. rewrite Hnever. simpl.
    destruct (chr_eqb c "{"); [simpl; now rewrite Hs, He|].
    destruct (chr_eqb c "}"); simpl; now rewrite Hs, He. }
  destruct Hscan as [Hs He]. unfold GetT3RequestInfo, finish. rewrite Hs, He.
  destruct s; reflexivity.
Qed.

Lemma no_delimiter_no_split_witness :
  GetT3RequestInfo (py "a b {c d}") None = [py "a b {c d}"]
  /\ GetT3RequestInfo (py "a, b") (Some (py ", ")) = [py "a, b"].
Proof.
  split.
  - apply (no_delimiter_no_split (py "a b {c d}") None). discriminate.
  - apply (no_delimiter_no_split (py "a, b") (Some (py ", "))). discriminate.
Defined.

Lemma split_snoc (d : ascii) (s : str) (c : ascii) (l : list str) (e : str) :
  split d s = l ++ [e] ->
  split d (s ++ [c]) = if chr_eqb c d then l ++ [e; []] else l ++ [e ++ [c]].
Proof.
  revert l e. induction s as [|a s IH]; intros l e H.
  - simpl in H. destruct l as [|x [|y l]]; try discriminate H.
    injection H as <-. simpl. destruct (chr_eqb c d); reflexivity.
  - simpl in *. destruct (chr_eqb a d).
    + destruct l as [|x l].
      * simpl in H. injection H as _ H. now destruct (split_nonempty d s).
      * injection H as <- H. rewrite (IH _ _ H).
        destruct (chr_eqb c d); reflexivity.
    + destruct (split d s) as [|p ps] eqn:E; [now destruct (split_nonempty d s)|].
      destruct l as [|x l].
      * injection H as <- ->. rewrite (IH [] p eq_refl).
        destruct (chr_eqb c d); reflexivity.
      * injection H as <- ->. rewrite (IH (p :: l) e eq_refl).
        destruct (chr_eqb c d); reflexivity.
Qed.

(** X3. On a string without braces the tokenizer is [str.split] on the
    delimiter, except that a last empty piece is dropped. *)
Theorem tokenize_without_braces_is_split :
  forall (s : str) (d : ascii),
    forallb (fun c => negb (is_brace c)) s = true ->
    GetT3RequestInfo s (Some [d]) = drop_trailing_empty (split d s).
Proof.
  intros s d Hs. unfold GetT3RequestInfo. rewrite finish_drop_trailing_empty.
  f_equal.
  assert (H : separated (scan (Some [d]) s) ++ [entry (scan (Some [d]) s)] = split d s
              /\ inside_brace (scan (Some [d]) s) = false).
  { induction s as [|c s IH] using rev_ind; [now split|].
    rewrite forallb_app in Hs. apply andb_true_iff in Hs as [Hs Hc].
    simpl in Hc. rewrite andb_true_r in Hc. apply negb_true_iff in Hc.
    unfold is_brace in Hc. apply orb_false_iff in Hc as [Ho Hcl].
    destruct (IH Hs) as [Hsplit Hflag].
    rewrite scan_snoc, (split_snoc d s c _ _ (eq_sym Hsplit)).
    unfold scan_step. rewrite Ho, Hcl, Hflag. simpl.
    destruct (chr_eqb c d); simpl; split; try reflexivity; try exact Hflag.
    now rewrite <- app_assoc. }
  exact (proj1 H).
Qed.

Lemma tokenize_without_braces_is_split_witness :
  GetT3RequestInfo (py "a  b ") (Some [" "%char]) = drop_trailing_empty (split " " (py "a  b ")).
Proof.
  apply tokenize_without_braces_is_split. reflexivity.
Defined.

(** X4. The tokens of a string whose braces are balanced and not nested
    have balanced, not nested braces themselves: no brace span is cut. *)
Theorem tokens_keep_braces_balanced :
  forall (s : str) (d : ascii),
    balanced_flat s ->
    Forall balanced_flat (GetT3RequestInfo s (Some [d])).
Proof.
  intros s d Hs.
  assert (H : forall b, flat_run s = Some b ->
            Forall balanced_flat (separated (scan (Some [d]) s))
            /\ flat_run (entry (scan (Some [d]) s)) = Some b).
  { clear Hs. induction s as [|c s IH] using rev_ind; intros b Hb.
    - injection Hb as <-. split; [constructor | reflexivity].
    - destruct (flat_run_prefix s c b Hb) as [b0 Hb0].
      destruct (IH b0 Hb0) as [Hsep Hent].
      destruct (flat_run_flag (Some [d]) s b0 Hb0) as [Hflag _].
      rewrite flat_run_snoc, Hb0 in Hb. rewrite scan_snoc.
      destruct (scan (Some [d]) s) as [l e fl]. simpl in *. subst fl.
      unfold scan_step, flat_step in *. simpl.
      destruct (chr_eqb c "{") eqn:Ho.
      { simpl. split; [exact Hsep|]. rewrite flat_run_snoc, Hent.
        unfold flat_step. now rewrite Ho. }
      destruct (chr_eqb c "}") eqn:Hc.
      { simpl. split; [exact Hsep|]. rewrite flat_run_snoc, Hent.
        unfold flat_step. now rewrite Ho, Hc. }
      injection Hb as <-.
      destruct (chr_eqb c d && negb b0) eqn:Hd; simpl.
      + apply andb_true_iff in Hd as [_ Hb0']. apply negb_true_iff in Hb0'. subst b0.
        split; [|reflexivity]. apply Forall_app. split; [exact Hsep|].
        constructor; [exact Hent | constructor].
      + split; [exact Hsep|]. rewrite flat_run_snoc, Hent.
        unfold flat_step. now rewrite Ho, Hc. }
  destruct (H false Hs) as [Hsep Hent].
  unfold GetT3RequestInfo, finish.
  destruct (negb (length (entry (scan (Some [d]) s)) =? 0)%nat); [|exact Hsep].
  apply Forall_app. split; [exact Hsep|]. constructor; [exact Hent | constructor].
Qed.

Lemma tokens_keep_braces_balanced_witness :
  Forall balanced_flat (GetT3RequestInfo (py "a={1 2} b={3}") (Some [" "%char])).
Proof.
  apply tokens_keep_braces_balanced. reflexivity.
Defined.

(** X5. Nesting is not tracked: after any string, the scanner is inside a
    brace exactly when the last brace character read is an opening one. *)
Theorem flag_follows_last_brace :
  forall (delimiter : option str) (s : str),
    inside_brace (scan delimiter s) = chr_eqb (last_brace s) "{".
Proof.
  intros delimiter s. unfold last_brace.
  induction s as [|c s IH] using rev_ind; [reflexivity|].
  rewrite scan_snoc, List.filter_app. unfold scan_step. simpl. unfold is_brace at 2.
  destruct (chr_eqb c "{") eqn:Ho; simpl.
  - rewrite last_last. exact (eq_sym Ho).
  - destruct (chr_eqb c "}") eqn:Hc; simpl.
    + rewrite last_last. exact (eq_sym Ho).
    + rewrite app_nil_r.
      destruct (is_delimiter c delimiter && negb (inside_brace (scan delimiter s)));
        exact IH.
Qed.

(** ** The decoder *)

Lemma organize_from_app (info : gmap str pyvalue) (a b : list str) :
  organize_from info (a ++ b)
  = (let! info' := organize_from info a in organize_from info' b).
Proof.
  revert info. induction a as [|tok a IH]; intros info; simpl; [reflexivity|].
  destruct (organize_step info tok) as [info'|e]; simpl; [apply IH | reflexivity].
Qed.

(** X6. Decoding a request in two parts: the tokens of the second part are
    decoded into the dictionary of the first, and an exception of the first
    part is the result, whatever follows. *)
Theorem decode_in_two_parts :
  forall (a b : list str),
    OrganizeT3Info (a ++ b)
    = match OrganizeT3Info a with
      | Ok info => organize_from info b
      | Raise e => Raise e
      end.
Proof.
  intros a b. unfold OrganizeT3Info. generalize (∅ : gmap str pyvalue).
  induction a as [|tok a IH]; intros info; [reflexivity|].
  cbn [app organize_from].
  destruct (organize_step info tok) as [info'|e]; cbn [bind]; [apply IH | reflexivity].
Qed.

(** X7. Tokens without [=] play no part: the decoder gives the same
    dictionary, or raises the same exception, when they are removed. *)
Theorem tokens_without_equals_ignored :
  forall (tokens : list str),
    OrganizeT3Info (List.filter (contains "=") tokens) = OrganizeT3Info tokens.
Proof.
  intros tokens. unfold OrganizeT3Info. generalize (∅ : gmap str pyvalue).
  induction tokens as [|tok tokens IH]; intros info; [reflexivity|].
  cbn [List.filter organize_from]. destruct (contains "=" tok) eqn:E.
  - cbn [organize_from].
    destruct (organize_step info tok); cbn [bind]; [apply IH | reflexivity].
  - unfold organize_step. rewrite E. cbn [bind]. apply IH.
Qed.

Lemma organize_step_other (info info' : gmap str pyvalue) (tok key : str) :
  organize_step info tok = Ok info' ->
  (forall rest, tok <> key ++ "="%char :: rest) ->
  info' !! key = info !! key.
Proof.
  intros Hstep Hne. unfold organize_step in Hstep.
  destruct (contains "=" tok) eqn:E; [|now injection Hstep as <-].
  destruct (contains_first _ _ E) as [k [r [-> Hk]]].
  rewrite (split1_first _ _ _ Hk) in Hstep.
  destruct (decode_value (strip r)) as [v|e]; [|discriminate Hstep].
  injection Hstep as <-. apply lookup_insert_ne.
  intros ->. now apply (Hne r).
Qed.

Lemma organize_from_other (info data : gmap str pyvalue) (tokens : list str) (key : str) :
  organize_from info tokens = Ok data ->
  (forall tok rest, In tok tokens -> tok <> key ++ "="%char :: rest) ->
  data !! key = info !! key.
Proof.
  revert info. induction tokens as [|tok tokens IH]; intros info H Hne.
  - now injection H as <-.
  - simpl in H. destruct (organize_step info tok) as [info'|e] eqn:E; [|discriminate H].
    simpl in H. rewrite (IH info' H).
    + apply (organize_step_other _ _ _ _ E). intros rest. apply Hne. now left.
    + intros t r Ht. apply Hne. now right.
Qed.

(** X8. The last token of a key wins: when the request decodes, a key is
    bound to the decoded value of its last token, whatever the earlier
    tokens of the same key held. *)
Theorem last_token_of_a_key_wins :
  forall (pre post : list str) (key rest : str) (data : gmap str pyvalue),
    contains "=" key = false ->
    (forall tok r, In tok post -> tok <> key ++ "="%char :: r) ->
    OrganizeT3Info (pre ++ (key ++ "="%char :: rest) :: post) = Ok data ->
    exists v, decode_value (strip rest) = Ok v /\ data !! key = Some v.
Proof.
  intros pre post key rest data Hk Hpost H.
  unfold OrganizeT3Info in H. rewrite organize_from_app in H.
  destruct (organize_from ∅ pre) as [i1|e]; [|discriminate H].
  cbn [bind organize_from] in H.
  rewrite (organize_step_first i1 key rest Hk) in H.
  destruct (decode_value (strip rest)) as [v|e]; [|discriminate H].
  cbn [bind] in H. exists v. split; [reflexivity|].
  rewrite (organize_from_other _ _ _ key H Hpost). apply lookup_insert_eq.
Qed.

Lemma last_token_of_a_key_wins_witness :
  exists v, decode_value (strip (py "{3}")) = Ok v
            /\ ({[ py "a" := VList [3]; py "b" := VInt 2 ]} : gmap str pyvalue) !! py "a" = Some v.
Proof.
  refine (last_token_of_a_key_wins [py "a=1"] [py "b=2"] (py "a") (py "{3}") _
            eq_refl _ eq_refl).
  intros tok r [<-|[]] H. discriminate H.
Defined.

Lemma organize_from_keys (info data : gmap str pyvalue) (tokens : list str)
    (key : str) (v : pyvalue) :
  organize_from info tokens = Ok data ->
  data !! key = Some v ->
  info !! key = Some v
  \/ exists rest, In (key ++ "="%char :: rest) tokens
                  /\ contains "=" key = false
                  /\ decode_value (strip rest) = Ok v.
Proof.
  revert info. induction tokens as [|tok tokens IH]; intros info H Hv.
  - injection H as <-. now left.
  - simpl in H. destruct (organize_step info tok) as [info'|e] eqn:E; [|discriminate H].
    simpl in H. destruct (IH info' H Hv) as [Hin|[rest [Hin [Hk Hd]]]].
    + unfold organize_step in E.
      destruct (contains "=" tok) eqn:Ec; [|injection E as <-; now left].
      destruct (contains_first _ _ Ec) as [k [r [-> Hk]]].
      rewrite (split1_first _ _ _ Hk) in E.
      destruct (decode_value (strip r)) as [w|e] eqn:Ed; [|discriminate E].
      injection E as <-.
      destruct (decide (k = key)) as [->|Hne].
      * rewrite lookup_insert_eq in Hin. injection Hin as ->.
        right. exists r. repeat split; [now left | exact Hk | exact Ed].
      * rewrite lookup_insert_ne in Hin by exact Hne. now left.
    + right. exists rest. repeat split; [now right | exact Hk | exact Hd].
Qed.

Lemma bindings_come_from_tokens_aux (tokens : list str) (data : gmap str pyvalue)
    (key : str) (v : pyvalue) :
  OrganizeT3Info tokens = Ok data ->
  data !! key = Some v ->
  exists rest, In (key ++ "="%char :: rest) tokens
               /\ contains "=" key = false
               /\ decode_value (strip rest) = Ok v.
Proof.
  intros H Hv.
  destruct (organize_from_keys ∅ data tokens key v H Hv) as [Hin|Hex]; [|exact Hex].
  rewrite lookup_empty in Hin. discriminate Hin.
Qed.

(** X9. The decoder invents nothing: every binding of the dictionary comes
    from a token, whose text before the first [=] is the key and whose
    trimmed text after it decodes to the value. *)
Theorem bindings_come_from_tokens :
  forall (tokens : list str) (data : gmap str pyvalue) (key : str) (v : pyvalue),
    OrganizeT3Info tokens = Ok data ->
    data !! key = Some v ->
    exists rest, In (key ++ "="%char :: rest) tokens
                 /\ contains "=" key = false
                 /\ decode_value (strip rest) = Ok v.
Proof.
  intros tokens data key v. apply bindings_come_from_tokens_aux.
Qed.

Lemma bindings_come_from_tokens_witness :
  exists rest, In (py "b" ++ "="%char :: rest) [py "a=1"; py "b= 2 "; py "c"]
               /\ contains "=" (py "b") = false
               /\ decode_value (strip rest) = Ok (VInt 2).
Proof.
  exact (bindings_come_from_tokens [py "a=1"; py "b= 2 "; py "c"] _ (py "b") (VInt 2)
           eq_refl eq_refl).
Defined.

Lemma int_of_str_raises (s : str) (e : pyerr) :
  int_of_str s = Raise e -> e = ValueError.
Proof.
  unfold int_of_str. destruct (take_sign (strip_by is_space_num s)) as [neg body].
  destruct (digitpart 0 0 false body) as [[v n]|]; congruence.
Qed.

Lemma map_int_raises (l : list str) (e : pyerr) :
  map_int l = Raise e -> e = ValueError.
Proof.
  induction l as [|p l IH]; simpl; [discriminate|].
  destruct (int_of_str p) as [z|e'] eqn:E; simpl.
  - destruct (map_int l) as [zs|e'']; simpl; [discriminate|].
    intros [= <-]. now apply IH.
  - intros [= <-]. exact (int_of_str_raises _ _ E).
Qed.

Lemma decode_value_raises (v : str) (e : pyerr) :
  decode_value v = Raise e -> e = ValueError \/ e = OverflowError.
Proof.
  unfold decode_value.
  destruct (startswith v (py "{") && endswith v (py "}")).
  - destruct (map_int _) as [l|e'] eqn:E; simpl; [discriminate|].
    intros [= <-]. left. exact (map_int_raises _ _ E).
  - destruct (startswith v ["034"%char] && endswith v ["034"%char]); [discriminate|].
    destruct (float_of_str v) as [[neg m x|neg|]|e'] eqn:E; simpl.
    + discriminate.
    + intros [= <-]. now right.
    + intros [= <-]. now left.
    + intros [= <-]. left. exact (float_of_str_raises _ _ E).
Qed.

(** X10. The decoder fails in two ways only: with [ValueError], for a list
    entry or a number that is not one, and with [OverflowError], for an
    infinite number. *)
Theorem decoder_errors :
  forall (tokens : list str) (e : pyerr),
    OrganizeT3Info tokens = Raise e -> e = ValueError \/ e = OverflowError.
Proof.
  intros tokens e. unfold OrganizeT3Info. generalize (∅ : gmap str pyvalue).
  induction tokens as [|tok tokens IH]; intros info; simpl; [discriminate|].
  destruct (organize_step info tok) as [info'|e'] eqn:E; simpl; [apply IH|].
  intros [= <-]. unfold organize_step in E.
  destruct (contains "=" tok) eqn:Ec; [|discriminate E].
  destruct (contains_first _ _ Ec) as [k [r [-> Hk]]].
  rewrite (split1_first _ _ _ Hk) in E.
  destruct (decode_value (strip r)) as [w|e''] eqn:Ed; [discriminate E|].
  injection E as <-. exact (decode_value_raises _ _ Ed).
Qed.

Lemma decoder_errors_witness :
  OverflowError = ValueError \/ OverflowError = OverflowError.
Proof.
  exact (decoder_errors [py "a=1"; py "b=-inf"] OverflowError eq_refl).
Defined.

(** X11. A value that begins and ends with a double quote is stored as it
    stands, quotes included; this covers the value made of one quote. *)
Theorem quoted_value_keeps_quotes :
  forall (info : gmap str pyvalue) (key rest : str),
    contains "=" key = false ->
    startswith (strip rest) ["034"%char] = true ->
    endswith (strip rest) ["034"%char] = true ->
    organize_step info (key ++ "="%char :: rest)
    = Ok (<[key := VStr (strip rest)]> info).
Proof.
  intros info key rest Hk Hs He.
  rewrite (organize_step_first info key rest Hk). unfold decode_value.
  rewrite Hs, He.
  destruct (strip rest) as [|c v]; [discriminate Hs|].
  simpl in Hs. rewrite andb_true_r in Hs. apply chr_eqb_eq in Hs. subst c.
  reflexivity.
Qed.

Lemma quoted_value_keeps_quotes_witness :
  organize_step ∅ (py "name=" ++ [" "%char; "034"%char; "a"%char; "034"%char])
  = Ok {[ py "name" := VStr ["034"%char; "a"%char; "034"%char] ]}
  /\ organize_step ∅ (py "q=" ++ ["034"%char]) = Ok {[ py "q" := VStr ["034"%char] ]}.
Proof.
  split.
  - exact (quoted_value_keeps_quotes ∅ (py "name") [" "%char; "034"%char; "a"%char; "034"%char]
             eq_refl eq_refl eq_refl).
  - exact (quoted_value_keeps_quotes ∅ (py "q") ["034"%char] eq_refl eq_refl eq_refl).
Defined.

(** ** The selection *)

Lemma index_from_none (l : list Z) (x : Z) (k : nat) :
  index_from k l x = None <-> ~ In x l.
Proof.
  revert k. induction l as [|y l IH]; intros k; simpl.
  - split; [intros _ [] | reflexivity].
  - destruct (y =? x) eqn:E.
    + apply Z.eqb_eq in E. split; [discriminate | intros H; exfalso; apply H; now left].
    + apply Z.eqb_neq in E. rewrite IH. split.
      * intros H [Hy|Hl]; [contradiction | now apply H].
      * intros H Hl. apply H. now right.
Qed.

(** X12. A request that decodes and has no token starting with
    [addresses=] makes the projection raise [KeyError]: it is the test of
    the loop, not [GetLetyInfo], that keeps such requests away. *)
Theorem projection_without_addresses :
  forall (t3info : list str) (data : gmap str pyvalue) (LetyID : Z),
    OrganizeT3Info t3info = Ok data ->
    (forall tok, In tok t3info -> startswith tok (py "addresses=") = false) ->
    GetLetyInfo t3info LetyID = Raise KeyError.
Proof.
  intros t3info data LetyID Hdata Hno.
  unfold GetLetyInfo. rewrite Hdata. cbn [bind]. unfold lety_data, getitem.
  destruct (data !! py "addresses") as [v|] eqn:E; [|reflexivity].
  destruct (bindings_come_from_tokens_aux t3info data (py "addresses") v Hdata E)
    as [rest [Hin _]].
  specialize (Hno _ Hin). discriminate Hno.
Qed.

Lemma projection_without_addresses_witness :
  GetLetyInfo [py "offsets={1}"; py "window={0}"] 97 = Raise KeyError.
Proof.
  refine (projection_without_addresses [py "offsets={1}"; py "window={0}"] _ 97 eq_refl _).
  intros tok [<-|[<-|[]]]; reflexivity.
Defined.

(** X13. When the decoded [addresses] is a list that does not hold the
    station, the projection raises [ValueError]: [GetLetyInfo] has no
    result for an absent station. *)
Theorem projection_of_absent_station :
  forall (t3info : list str) (data : gmap str pyvalue) (addresses : list Z)
         (LetyID : Z),
    OrganizeT3Info t3info = Ok data ->
    data !! py "addresses" = Some (VList addresses) ->
    ~ In LetyID addresses ->
    GetLetyInfo t3info LetyID = Raise ValueError.
Proof.
  intros t3info data addresses LetyID Hdata Ha Hno.
  unfold GetLetyInfo. rewrite Hdata. cbn [bind].
  unfold lety_data, getitem. rewrite Ha. cbn [bind value_index].
  now rewrite (proj2 (index_from_none addresses LetyID 0) Hno).
Qed.

Lemma projection_of_absent_station_witness :
  GetLetyInfo [py "addresses={12 33}"; py "offsets={1 2}"] 97 = Raise ValueError.
Proof.
  refine (projection_of_absent_station [py "addresses={12 33}"; py "offsets={1 2}"]
            _ [12; 33] 97 eq_refl eq_refl _).
  intros [H|[H|[]]]; discriminate H.
Defined.

(** X14. An [addresses] value that is not a list in braces never gives a
    record: a bare number raises [AttributeError] and a quoted string
    raises [TypeError]. *)
Theorem projection_of_scalar_addresses :
  forall (t3info : list str) (data : gmap str pyvalue) (LetyID : Z),
    OrganizeT3Info t3info = Ok data ->
    (forall z, data !! py "addresses" = Some (VInt z) ->
       GetLetyInfo t3info LetyID = Raise AttributeError)
    /\ (forall s, data !! py "addresses" = Some (VStr s) ->
          GetLetyInfo t3info LetyID = Raise TypeError).
Proof.
  intros t3info data LetyID Hdata.
  split; intros x Ha; unfold GetLetyInfo; rewrite Hdata; cbn [bind];
    unfold lety_data, getitem; now rewrite Ha.
Qed.

Lemma projection_of_scalar_addresses_witness :
  GetLetyInfo [py "addresses=97"; py "offsets={1}"] 97 = Raise AttributeError.
Proof.
  exact (proj1 (projection_of_scalar_addresses [py "addresses=97"; py "offsets={1}"]
                  _ 97 eq_refl) 97 eq_refl).
Defined.

Lemma lety_data_four (data : gmap str pyvalue) (LetyID : Z) (l : list pyvalue) :
  lety_data data LetyID = Ok l -> exists a b c d, l = [a; b; c; d].
Proof.
  unfold lety_data.
  repeat match goal with
         | |- context [bind ?x _] => destruct x; cbn [bind]; [|discriminate]
         end.
  intros [= <-]. eauto.
Qed.

(** X15. Every exception of a line comes from [GetLetyInfo]: the indexing
    done by the loop itself (column 4, the text after [=], the four values
    of the record) never fails. *)
Theorem line_fails_only_in_projection :
  forall (line : str) (LetyID : Z) (e : pyerr),
    process_line line LetyID = Failed e ->
    GetLetyInfo
      (GetT3RequestInfo (nth 4 (split "|" (strip line)) []) (Some (py " "))) LetyID
    = Raise e.
Proof.
  intros line LetyID e. unfold process_line.
  destruct (negb (length (split "|" (strip line)) =? 6)%nat) eqn:Hlen; [discriminate|].
  destruct (negb (str_in (py "IkT3") (split "|" (strip line)))); [discriminate|].
  apply negb_false_iff, Nat.eqb_eq in Hlen.
  destruct (split "|" (strip line)) as [|c0 [|c1 [|c2 [|c3 [|c4 [|c5 [|c6 cols]]]]]]];
    try discriminate Hlen.
  cbn [item nth_error nth].
  destruct (listed (GetT3RequestInfo c4 (Some (py " "))) LetyID) eqn:Hl.
  - revert Hl. unfold listed, process_request.
    destruct (str_eqb (first_addresses (GetT3RequestInfo c4 (Some (py " ")))) []) eqn:Hf.
    { apply str_eqb_eq in Hf. rewrite Hf. discriminate. }
    destruct (item (split "=" (first_addresses (GetT3RequestInfo c4 (Some (py " "))))) 1)
      as [field|err]; [|discriminate].
    intros ->. cbn [negb].
    destruct (GetLetyInfo (GetT3RequestInfo c4 (Some (py " "))) LetyID) as [l|e'] eqn:Hg;
      cbn [bind].
    + unfold GetLetyInfo in Hg.
      destruct (OrganizeT3Info (GetT3RequestInfo c4 (Some (py " ")))) as [data|]; [|discriminate Hg].
      destruct (lety_data_four _ _ _ Hg) as [a [b [c [d ->]]]]. discriminate.
    + now intros [= <-].
  - rewrite (process_request_not_listed c4 LetyID Hl). discriminate.
Qed.

Lemma line_fails_only_in_projection_witness :
  GetLetyInfo
    (GetT3RequestInfo
       (nth 4 (split "|" (strip (py "t|IkT3|a|b|addresses={97} offsets={x}|c"))) [])
       (Some (py " "))) 97
  = Raise ValueError.
Proof.
  exact (line_fails_only_in_projection
           (py "t|IkT3|a|b|addresses={97} offsets={x}|c") 97 ValueError eq_refl).
Defined.

(** ** The loop over the lines *)

Lemma process_line_not_eligible (line : str) (LetyID : Z) :
  eligible line = false -> process_line line LetyID = Skipped.
Proof.
  unfold eligible, process_line. intros H.
  destruct (length (split "|" (strip line)) =? 6)%nat; [|reflexivity].
  cbn [andb] in H. now rewrite H.
Qed.

(** X16. The output depends on the eligible lines only: removing the lines
    that do not have six columns or lack the marker [IkT3] changes neither
    what is written nor the exception that ends the run. *)
Theorem run_ignores_ineligible_lines :
  forall (lines : list str) (LetyID : Z) (out : list str),
    process_lines (List.filter eligible lines) LetyID out
    = process_lines lines LetyID out.
Proof.
  intros lines LetyID. induction lines as [|line lines IH]; intros out; [reflexivity|].
  cbn [List.filter process_lines]. destruct (eligible line) eqn:E.
  - cbn [process_lines]. destruct (process_line line LetyID); [apply IH | apply IH | reflexivity].
  - rewrite (process_line_not_eligible line LetyID E). apply IH.
Qed.

(** X17. Running two logs one after the other: the second is processed
    after the output of the first, unless the first ends with an exception,
    which is then the result. *)
Theorem run_of_two_parts :
  forall (a b : list str) (LetyID : Z) (out : list str),
    process_lines (a ++ b) LetyID out
    = match raised (process_lines a LetyID out) with
      | None => process_lines b LetyID (written (process_lines a LetyID out))
      | Some _ => process_lines a LetyID out
      end.
Proof.
  intros a b LetyID. induction a as [|line a IH]; intros out; [reflexivity|].
  cbn [app process_lines].
  destruct (process_line line LetyID); [apply IH | apply IH | reflexivity].
Qed.

Lemma process_lines_extends (lines : list str) (LetyID : Z) (out : list str) :
  exists records,
    written (process_lines lines LetyID out) = out ++ records
    /\ (length records <= length lines)%nat.
Proof.
  revert out. induction lines as [|line lines IH]; intros out.
  - exists []. split; [simpl; now rewrite app_nil_r | simpl; lia].
  - cbn [process_lines]. destruct (process_line line LetyID) as [|text|e].
    + destruct (IH out) as [records [Hw Hl]]. exists records. split; [exact Hw | simpl; lia].
    + destruct (IH (out ++ [text])) as [records [Hw Hl]]. exists (text :: records).
      split; [now rewrite Hw, <- app_assoc | simpl; lia].
    + exists []. split; [simpl; now rewrite app_nil_r | simpl; lia].
Qed.

(** X18. Whatever the lines hold, and whether or not the run ends with an
    exception, the output begins with the header line and holds at most
    one record per input line. *)
Theorem output_is_header_then_records :
  forall (inputFile outputFilepath : str) (lines : list str) (LetyID : Z)
         (name : str) (r : run),
    ParseIkLog inputFile outputFilepath lines LetyID = Ok (name, r) ->
    exists records,
      written r = (py "#gpsSec, gpsMicroSec, offset, window" ++ ["010"%char]) :: records
      /\ (length records <= length lines)%nat.
Proof.
  intros inputFile outputFilepath lines LetyID name r. unfold ParseIkLog.
  destruct (out_file inputFile outputFilepath) as [outFile|e]; [|discriminate].
  cbn [bind]. intros [= _ <-].
  destruct (process_lines_extends lines LetyID
              [py "#gpsSec, gpsMicroSec, offset, window" ++ ["010"%char]])
    as [records [Hw Hl]].
  exists records. split; [exact Hw | exact Hl].
Qed.

Lemma output_is_header_then_records_witness :
  exists records,
    written {| written := [py "#gpsSec, gpsMicroSec, offset, window" ++ ["010"%char]];
               raised := Some ValueError |}
    = (py "#gpsSec, gpsMicroSec, offset, window" ++ ["010"%char]) :: records
    /\ (length records <= 1)%nat.
Proof.
  exact (output_is_header_then_records (py "ik_2020_01_02") (py "out")
           [py "t|IkT3|a|b|addresses={97} offsets={x}|c"] 97 _ _ eq_refl).
Defined.

Lemma lstrip_app_all (p : ascii -> bool) (ws s : str) :
  forallb p ws = true -> lstrip_by p (ws ++ s) = lstrip_by p s.
Proof.
  induction ws as [|c ws IH]; simpl; [reflexivity|].
  intros H. apply andb_true_iff in H as [Hc Hws]. rewrite Hc. now apply IH.
Qed.

Lemma forallb_rev (p : ascii -> bool) (s : str) :
  forallb p s = true -> forallb p (rev s) = true.
Proof.
  rewrite !forallb_forall. intros H c Hc. apply H. now apply in_rev.
Qed.

Lemma rstrip_app_all (p : ascii -> bool) (s ws : str) :
  forallb p ws = true -> rstrip_by p (s ++ ws) = rstrip_by p s.
Proof.
  intros H. unfold rstrip_by. rewrite rev_app_distr.
  now rewrite (lstrip_app_all p (rev ws) (rev s) (forallb_rev p ws H)).
Qed.

Lemma strip_by_app_all (p : ascii -> bool) (s ws : str) :
  forallb p ws = true -> strip_by p (s ++ ws) = strip_by p s.
Proof.
  intros H. unfold strip_by. induction s as [|c s IH]; simpl.
  - now rewrite (lstrip_all p ws H).
  - destruct (p c); [exact IH|].
    change (c :: s ++ ws) with ((c :: s) ++ ws). now apply rstrip_app_all.
Qed.

Lemma strip_surrounded (before line after : str) :
  forallb is_space before = true -> forallb is_space after = true ->
  strip (before ++ line ++ after) = strip line.
Proof.
  intros Hb Ha. unfold strip. rewrite app_assoc, (strip_by_app_all _ _ _ Ha).
  unfold strip_by. now rewrite (lstrip_app_all _ _ _ Hb).
Qed.

(** X19. Whitespace around a line does not matter: the line with a newline
    at its end, as the file iterator gives it, or indented, has the
    outcome of the bare line. *)
Theorem line_outcome_ignores_outer_whitespace :
  forall (before line after : str) (LetyID : Z),
    forallb is_space before = true ->
    forallb is_space after = true ->
    process_line (before ++ line ++ after) LetyID = process_line line LetyID.
Proof.
  intros before line after LetyID Hb Ha. unfold process_line.
  now rewrite (strip_surrounded before line after Hb Ha).
Qed.

Lemma line_outcome_ignores_outer_whitespace_witness :
  process_line
    (py "  " ++ py "t|IkT3|a|b|addresses={97} offsets={7} window={0} refSecond=5 refuSecond=1|c"
       ++ ["013"%char; "010"%char]) 97
  = process_line
      (py "t|IkT3|a|b|addresses={97} offsets={7} window={0} refSecond=5 refuSecond=1|c") 97.
Proof.
  apply line_outcome_ignores_outer_whitespace; reflexivity.
Defined.

(** ** The name of the output file *)

Lemma split_length (sep : ascii) (s : str) :
  length (split sep s) = S (count_occ ascii_dec s sep).
Proof.
  induction s as [|c s IH]; [reflexivity|]. simpl.
  destruct (ascii_dec c sep) as [->|Hne].
  - rewrite chr_eqb_refl. simpl. now rewrite IH.
  - rewrite (proj2 (chr_eqb_neq c sep) Hne).
    destruct (split sep s); [discriminate IH | exact IH].
Qed.

Lemma item_defined {A : Type} (l : list A) (i : nat) :
  (i < length l)%nat -> exists a, item l i = Ok a.
Proof.
  intros H. unfold item. destruct (nth_error l i) as [a|] eqn:E; [now exists a|].
  apply nth_error_None in E. lia.
Qed.

Lemma item_undefined {A : Type} (l : list A) (i : nat) :
  (length l <= i)%nat -> item l i = Raise IndexError.
Proof.
  intros H. unfold item. now rewrite (proj2 (nth_error_None l i) H).
Qed.

Lemma item_raises {A : Type} (l : list A) (i : nat) (e : pyerr) :
  item l i = Raise e -> e = IndexError.
Proof. unfold item. destruct (nth_error l i); congruence. Qed.

(** X20. The name of the output file cannot be built, and [ParseIkLog]
    raises [IndexError] before it opens any file, exactly when the name of
    the input file has fewer than three underscores or the output path is
    empty; no other exception is possible. *)
Theorem output_name_needs_three_underscores :
  forall (inputFile outputFilepath : str),
    (out_file inputFile outputFilepath = Raise IndexError
     <-> (count_occ ascii_dec inputFile "_"%char < 3)%nat \/ outputFilepath = [])
    /\ (forall e, out_file inputFile outputFilepath = Raise e -> e = IndexError)
    /\ (forall lines LetyID e,
          ParseIkLog inputFile outputFilepath lines LetyID = Raise e
          <-> out_file inputFile outputFilepath = Raise e).
Proof.
  intros inputFile outputFilepath.
  pose proof (split_length "_" inputFile) as Hlen.
  assert (Hcases :
    ((count_occ ascii_dec inputFile "_"%char < 3)%nat \/ outputFilepath = [])
    /\ out_file inputFile outputFilepath = Raise IndexError
    \/ ~ ((count_occ ascii_dec inputFile "_"%char < 3)%nat \/ outputFilepath = [])
       /\ exists name, out_file inputFile outputFilepath = Ok name).
  { unfold out_file.
    destruct (le_lt_dec 3 (count_occ ascii_dec inputFile "_"%char)) as [Hge|Hlt].
    - destruct (item_defined (split "_" inputFile) 1 ltac:(lia)) as [d1 ->].
      destruct (item_defined (split "_" inputFile) 2 ltac:(lia)) as [d2 ->].
      destruct (item_defined (split "_" inputFile) 3 ltac:(lia)) as [d3 ->].
      cbn [bind]. destruct (rev outputFilepath) as [|c r] eqn:Er.
      + left. split; [|reflexivity]. right.
        rewrite <- (rev_involutive outputFilepath), Er. reflexivity.
      + right. split.
        * intros [H|H]; [lia | subst outputFilepath; discriminate Er].
        * cbn [item nth_error bind]. destruct (chr_eqb c "/"); eauto.
    - left. split; [now left|].
      destruct (item (split "_" inputFile) 1) as [d1|e1] eqn:E1; cbn [bind];
        [|now rewrite (item_raises _ _ _ E1)].
      destruct (item (split "_" inputFile) 2) as [d2|e2] eqn:E2; cbn [bind];
        [|now rewrite (item_raises _ _ _ E2)].
      now rewrite (item_undefined (split "_" inputFile) 3) by lia. }
  repeat split.
  - intros H. destruct Hcases as [[Hc _]|[_ [name Hn]]]; [exact Hc | congruence].
  - intros H. destruct Hcases as [[_ Hr]|[Hc _]]; [exact Hr | contradiction].
  - intros e H. destruct Hcases as [[_ Hr]|[_ [name Hn]]]; congruence.
  - unfold ParseIkLog. destruct (out_file inputFile outputFilepath); cbn [bind];
      [discriminate | intros [= ->]; reflexivity].
  - unfold ParseIkLog. intros ->. reflexivity.
Qed.

Lemma output_name_needs_three_underscores_witness :
  out_file (py "IkLog_2021_03") (py "/out") = Raise IndexError
  /\ out_file (py "IkLog_2021_03_04") [] = Raise IndexError.
Proof.
  split.
  - apply (proj1 (output_name_needs_three_underscores (py "IkLog_2021_03") (py "/out"))).
    left. simpl. lia.
  - apply (proj1 (output_name_needs_three_underscores (py "IkLog_2021_03_04") [])).
    now right.
Defined.

(** X21. A slash at the end of the output path is optional: a non-empty
    path that does not end with a slash names the same file as the path
    followed by a slash. *)
Theorem output_path_slash_optional :
  forall (inputFile outputFilepath : str),
    outputFilepath <> [] ->
    endswith outputFilepath (py "/") = false ->
    out_file inputFile (outputFilepath ++ py "/") = out_file inputFile outputFilepath.
Proof.
  intros inputFile outputFilepath Hne Hend. unfold out_file.
  destruct (item (split "_" inputFile) 1) as [d1|]; [|reflexivity].
  destruct (item (split "_" inputFile) 2) as [d2|]; [|reflexivity].
  destruct (item (split "_" inputFile) 3) as [d3|]; [|reflexivity].
  cbn [bind]. rewrite rev_app_distr. cbn [py list_ascii_of_string rev app].
  cbn [item nth_error bind]. rewrite chr_eqb_refl.
  unfold endswith in Hend.
  destruct (rev outputFilepath) as [|c r] eqn:Er.
  - exfalso. apply Hne. rewrite <- (rev_involutive outputFilepath), Er. reflexivity.
  - cbn [py list_ascii_of_string rev app startswith] in Hend.
    rewrite andb_true_r in Hend. cbn [item nth_error bind]. rewrite Hend.
    f_equal. now rewrite <- !app_assoc.
Qed.

Lemma output_path_slash_optional_witness :
  out_file (py "ik_2020_01_02") (py "/out" ++ py "/") = out_file (py "ik_2020_01_02") (py "/out").
Proof.
  apply output_path_slash_optional; [discriminate | reflexivity].
Defined.

(** ** Decimal texts *)

Lemma uint_acc_pos (d : Decimal.uint) (p : positive) :
  uint_acc (Z.pos p) d = Z.pos (Pos.of_uint_acc d p).
Proof.
  revert p. induction d; intros p; simpl; [reflexivity|..];
    rewrite <- IHd; f_equal; lia.
Qed.

Lemma uint_acc_zero (d : Decimal.uint) :
  uint_acc 0 d = Z.of_N (Pos.of_uint d).
Proof.
  induction d; simpl; try reflexivity; try exact IHd;
    apply (uint_acc_pos d).
Qed.

Lemma digits_numeric (d : Decimal.uint) :
  forallb is_digit (py (NilEmpty.string_of_uint d)) = true.
Proof. induction d; simpl; [reflexivity|..]; exact IHd. Qed.

Lemma digitpart_digits (d : Decimal.uint) (acc n : Z) (prev : bool) :
  d <> Decimal.Nil \/ prev = true ->
  exists k, digitpart acc n prev (py (NilEmpty.string_of_uint d))
            = Some (uint_acc acc d, k).
Proof.
  revert acc n prev. induction d; intros acc n prev H.
  - destruct H as [H| ->]; [contradiction|]. simpl. eauto.
  - cbn [uint_acc]. replace (10 * acc) with (10 * acc + 0) by lia.
    apply (IHd (10 * acc + 0) (n + 1) true). now right.
  - apply (IHd (10 * acc + 1) (n + 1) true). now right.
  - apply (IHd (10 * acc + 2) (n + 1) true). now right.
  - apply (IHd (10 * acc + 3) (n + 1) true). now right.
  - apply (IHd (10 * acc + 4) (n + 1) true). now right.
  - apply (IHd (10 * acc + 5) (n + 1) true). now right.
  - apply (IHd (10 * acc + 6) (n + 1) true). now right.
  - apply (IHd (10 * acc + 7) (n + 1) true). now right.
  - apply (IHd (10 * acc + 8) (n + 1) true). now right.
  - apply (IHd (10 * acc + 9) (n + 1) true). now right.
Qed.

(** What the characters of a decimal text are not. *)
Lemma numeric_char_facts (c : ascii) :
  numeric_char c = true ->
  is_space c = false /\ is_space_num c = false /\ is_brace c = false
  /\ chr_eqb c " " = false /\ chr_eqb c "=" = false /\ chr_eqb c "_" = false
  /\ chr_eqb c "|" = false /\ chr_eqb c "." = false /\ chr_eqb c "+" = false
  /\ chr_eqb c "034" = false /\ chr_eqb (lower c) "i" = false
  /\ chr_eqb (lower c) "n" = false /\ chr_eqb (lower c) "e" = false.
Proof.
  destruct c as [[|] [|] [|] [|] [|] [|] [|] [|]]; vm_compute; intros H;
    try discriminate H; repeat split.
Qed.

Lemma lstrip_head (p : ascii -> bool) (c : ascii) (s : str) :
  p c = false -> lstrip_by p (c :: s) = c :: s.
Proof. intros H. simpl. now rewrite H. Qed.

Lemma rstrip_last (p : ascii -> bool) (s : str) (c : ascii) :
  p c = false -> rstrip_by p (s ++ [c]) = s ++ [c].
Proof.
  intros H. unfold rstrip_by. rewrite rev_app_distr. simpl. rewrite H.
  simpl. now rewrite rev_involutive.
Qed.

(** A string whose first and last characters are kept is not changed by
    [strip]. *)
Lemma strip_by_ends (p : ascii -> bool) (s : str) (a b : ascii) (t u : str) :
  s = a :: t -> s = u ++ [b] -> p a = false -> p b = false -> strip_by p s = s.
Proof.
  intros Ha Hb Hpa Hpb. unfold strip_by.
  rewrite Ha at 1. rewrite (lstrip_head p a t Hpa), <- Ha, Hb.
  now apply rstrip_last.
Qed.

Lemma strip_by_none (p : ascii -> bool) (s : str) :
  forallb (fun c => negb (p c)) s = true -> strip_by p s = s.
Proof.
  intros H. destruct s as [|a t]; [reflexivity|].
  destruct (exists_last (l := a :: t) ltac:(discriminate)) as [u [b Hb]].
  assert (Hall : forall c, In c (a :: t) -> p c = false).
  { intros c Hc. rewrite forallb_forall in H. now apply negb_true_iff, H. }
  apply (strip_by_ends p (a :: t) a b t u eq_refl Hb).
  - apply Hall. now left.
  - apply Hall. rewrite Hb. apply in_or_app. right. now left.
Qed.

(** The decimal text of an integer: an optional minus sign and the digits
    of its absolute value. *)
Lemma str_of_int_cases (z : Z) :
  exists d, d <> Decimal.Nil
    /\ uint_acc 0 d = Z.abs z
    /\ str_of_int z
       = (if z <? 0 then ["-"%char] else []) ++ py (NilEmpty.string_of_uint d).
Proof.
  destruct z as [|p|p].
  - exists (Decimal.D0 Decimal.Nil). repeat split. discriminate.
  - exists (Pos.to_uint p). pose proof (DecimalPos.Unsigned.to_uint_nonnil p) as Hn.
    repeat split; [exact Hn | |].
    + now rewrite uint_acc_zero, DecimalPos.Unsigned.of_to.
    + unfold str_of_int. simpl. destruct (Pos.to_uint p); [contradiction|..]; reflexivity.
  - exists (Pos.to_uint p). pose proof (DecimalPos.Unsigned.to_uint_nonnil p) as Hn.
    repeat split; [exact Hn | |].
    + now rewrite uint_acc_zero, DecimalPos.Unsigned.of_to.
    + unfold str_of_int. simpl. destruct (Pos.to_uint p); [contradiction|..]; reflexivity.
Qed.

Lemma str_of_int_numeric (z : Z) : forallb numeric_char (str_of_int z) = true.
Proof.
  destruct (str_of_int_cases z) as [d [_ [_ ->]]].
  rewrite forallb_app. apply andb_true_iff. split.
  - destruct (z <? 0); reflexivity.
  - pose proof (digits_numeric d) as H. rewrite forallb_forall in *.
    intros c Hc. unfold numeric_char. now rewrite (H c Hc).
Qed.

Lemma str_of_int_nonempty (z : Z) : str_of_int z <> [].
Proof.
  destruct (str_of_int_cases z) as [d [Hd [_ ->]]].
  destruct (z <? 0); [discriminate|]. destruct d; [contradiction|..]; discriminate.
Qed.

Lemma numeric_all (P : ascii -> bool) (s : str) :
  (forall c, numeric_char c = true -> P c = true) ->
  forallb numeric_char s = true -> forallb P s = true.
Proof.
  intros HP H. rewrite forallb_forall in *. intros c Hc. apply HP, H, Hc.
Qed.

Lemma take_sign_digits (d : Decimal.uint) :
  d <> Decimal.Nil ->
  take_sign (py (NilEmpty.string_of_uint d)) = (false, py (NilEmpty.string_of_uint d)).
Proof. destruct d; [contradiction|..]; reflexivity. Qed.

Lemma take_sign_str_of_int (z : Z) :
  exists d, d <> Decimal.Nil /\ uint_acc 0 d = Z.abs z
    /\ take_sign (str_of_int z) = (z <? 0, py (NilEmpty.string_of_uint d)).
Proof.
  destruct (str_of_int_cases z) as [d [Hd [Hv ->]]]. exists d.
  repeat split; [exact Hd | exact Hv |].
  destruct (z <? 0); [reflexivity | now apply take_sign_digits].
Qed.

Lemma apply_sign_abs (z : Z) : apply_sign (z <? 0) (Z.abs z) = z.
Proof. unfold apply_sign. destruct (z <? 0) eqn:E; lia. Qed.

Lemma str_of_int_no_space (z : Z) :
  forallb (fun c => negb (is_space_num c)) (str_of_int z) = true.
Proof.
  apply (numeric_all _ _
    (fun c H => proj2 (negb_true_iff _) (proj1 (proj2 (numeric_char_facts c H))))).
  apply str_of_int_numeric.
Qed.

Lemma int_of_str_of_int (z : Z) : int_of_str (str_of_int z) = Ok z.
Proof.
  unfold int_of_str. rewrite (strip_by_none _ _ (str_of_int_no_space z)).
  destruct (take_sign_str_of_int z) as [d [Hd [Hv ->]]].
  destruct (digitpart_digits d 0 0 false (or_introl Hd)) as [k ->].
  now rewrite Hv, apply_sign_abs.
Qed.

(** [int] reads back what [str] writes: the decimal text of any integer,
    whatever its size, is parsed to that integer; hence two integers with
    the same text are equal. *)
Theorem int_reads_back_str :
  (forall z : Z, int_of_str (str_of_int z) = Ok z)
  /\ (forall a b : Z, str_eqb (str_of_int a) (str_of_int b) = true <-> a = b).
Proof.
  split; [exact int_of_str_of_int|].
  intros a b. rewrite str_eqb_eq. split; [|now intros ->].
  intros H. pose proof (int_of_str_of_int a) as Ha.
  rewrite H, int_of_str_of_int in Ha. now injection Ha.
Qed.

Lemma drop_underscores_none (s : str) :
  forallb (fun c => negb (chr_eqb c "_")) s = true -> drop_underscores s = s.
Proof.
  unfold drop_underscores. induction s as [|c s IH]; [reflexivity|].
  simpl. intros H. apply andb_true_iff in H as [Hc Hs].
  rewrite filter_cons. destruct (decide _) as [Hd|Hd].
  - f_equal. now apply IH.
  - exfalso. apply Hd. now apply Is_true_true.
Qed.

Lemma underscores_ok_none (s : str) (prev : option ascii) :
  forallb (fun c => negb (chr_eqb c "_")) s = true -> underscores_ok prev s = true.
Proof.
  revert prev. induction s as [|c s IH]; intros prev; [reflexivity|].
  simpl. intros H. apply andb_true_iff in H as [Hc Hs].
  apply negb_true_iff in Hc. rewrite Hc. now apply IH.
Qed.

Lemma digits_run_digits (d : Decimal.uint) (acc n : Z) :
  exists k, digits_run acc n (py (NilEmpty.string_of_uint d)) = (uint_acc acc d, k, [])
            /\ (d <> Decimal.Nil -> n < k) /\ n <= k.
Proof.
  revert acc n. induction d; intros acc n.
  - exists n. repeat split; [contradiction | lia].
  - cbn [uint_acc]. replace (10 * acc) with (10 * acc + 0) by lia.
    destruct (IHd (10 * acc + 0) (n + 1)) as [k [H [_ Hk]]]. exists k.
    repeat split; [exact H | intros _; lia | lia].
  - destruct (IHd (10 * acc + 1) (n + 1)) as [k [H [_ Hk]]]. exists k.
    repeat split; [exact H | intros _; lia | lia].
  - destruct (IHd (10 * acc + 2) (n + 1)) as [k [H [_ Hk]]]. exists k.
    repeat split; [exact H | intros _; lia | lia].
  - destruct (IHd (10 * acc + 3) (n + 1)) as [k [H [_ Hk]]]. exists k.
    repeat split; [exact H | intros _; lia | lia].
  - destruct (IHd (10 * acc + 4) (n + 1)) as [k [H [_ Hk]]]. exists k.
    repeat split; [exact H | intros _; lia | lia].
  - destruct (IHd (10 * acc + 5) (n + 1)) as [k [H [_ Hk]]]. exists k.
    repeat split; [exact H | intros _; lia | lia].
  - destruct (IHd (10 * acc + 6) (n + 1)) as [k [H [_ Hk]]]. exists k.
    repeat split; [exact H | intros _; lia | lia].
  - destruct (IHd (10 * acc + 7) (n + 1)) as [k [H [_ Hk]]]. exists k.
    repeat split; [exact H | intros _; lia | lia].
  - destruct (IHd (10 * acc + 8) (n + 1)) as [k [H [_ Hk]]]. exists k.
    repeat split; [exact H | intros _; lia | lia].
  - destruct (IHd (10 * acc + 9) (n + 1)) as [k [H [_ Hk]]]. exists k.
    repeat split; [exact H | intros _; lia | lia].
Qed.

(** An integer below [2^53] is a double, and rounding leaves it as it is. *)
Lemma round_binary64_integer (v : Z) :
  0 < v < 2 ^ 53 ->
  exists q e, round_binary64 v 1 = (q, e) /\ e <= 0 /\ q = v * 2 ^ (- e).
Proof.
  intros [Hpos Hlt].
  pose proof (Z.log2_spec v Hpos) as [Hlo Hhi].
  pose proof (Z.log2_nonneg v) as HL0.
  assert (HL : Z.log2 v < 53) by (apply Z.log2_lt_pow2; lia).
  set (L := Z.log2 v) in *.
  unfold round_binary64. change (Z.log2 1) with 0. rewrite Z.sub_0_r. fold L.
  assert (Hk : 0 <= 52 - L) by lia.
  assert (H52 : 2 ^ L * 2 ^ (52 - L) = 2 ^ 52).
  { rewrite <- Z.pow_add_r by lia. f_equal. lia. }
  assert (H53 : 2 ^ Z.succ L * 2 ^ (52 - L) = 2 ^ 53).
  { rewrite <- Z.pow_add_r by lia. f_equal. lia. }
  assert (Hp : 0 < 2 ^ (52 - L)) by (apply Z.pow_pos_nonneg; lia).
  assert (Ha : 2 ^ 52 <= v * 2 ^ (52 - L) < 2 ^ 53).
  { rewrite <- H52, <- H53. split.
    - apply Z.mul_le_mono_nonneg_r; lia.
    - apply Z.mul_lt_mono_pos_r; lia. }
  destruct (Z.eq_dec L 52) as [E|E].
  - rewrite E in *. change (52 - 52) with 0 in *. change (2 ^ 0) with 1 in *.
    rewrite Z.mul_1_r in Ha.
    cbn [Z.ltb Z.compare]. change (1 * 1) with 1. rewrite !Z.div_1_r.
    replace (v <? 2 ^ 52) with false by (symmetry; apply Z.ltb_ge; lia).
    change (Z.max 0 (-1074)) with 0. cbn [Z.ltb Z.compare].
    rewrite Z.div_1_r, Z.mod_1_r.
    change (1 * 2 ^ 0) with 1. change (2 * 0) with 0.
    change (1 <? 0) with false. change (1 =? 0) with false. cbn [orb andb].
    replace (v =? 2 ^ 53) with false by (symmetry; apply Z.eqb_neq; lia).
    exists v, 0. repeat split; [lia | simpl; lia].
  - assert (Hneg : (L - 52 <? 0) = true) by (apply Z.ltb_lt; lia).
    rewrite Hneg. replace (- (L - 52)) with (52 - L) by lia.
    rewrite Z.div_1_r.
    replace (v * 2 ^ (52 - L) <? 2 ^ 52) with false by (symmetry; apply Z.ltb_ge; lia).
    rewrite Z.max_l by lia. rewrite Hneg.
    replace (- (L - 52)) with (52 - L) by lia.
    rewrite Z.div_1_r, Z.mod_1_r.
    change (2 * 0) with 0.
    change (1 <? 0) with false. change (1 =? 0) with false. cbn [orb andb].
    replace (v * 2 ^ (52 - L) =? 2 ^ 53) with false by (symmetry; apply Z.eqb_neq; lia).
    exists (v * 2 ^ (52 - L)), (L - 52). repeat split; [lia|].
    f_equal. f_equal. lia.
Qed.

Lemma digits_not_a_word (d : Decimal.uint) :
  d <> Decimal.Nil ->
  str_eqb (map lower (py (NilEmpty.string_of_uint d))) (py "inf") = false
  /\ str_eqb (map lower (py (NilEmpty.string_of_uint d))) (py "infinity") = false
  /\ str_eqb (map lower (py (NilEmpty.string_of_uint d))) (py "nan") = false.
Proof. destruct d; [contradiction|..]; intros _; repeat split. Qed.

Lemma str_of_int_no_underscore (z : Z) :
  forallb (fun c => negb (chr_eqb c "_")) (str_of_int z) = true.
Proof.
  apply (numeric_all _ _ (fun c H => proj2 (negb_true_iff _)
    (proj1 (proj2 (proj2 (proj2 (proj2 (proj2 (numeric_char_facts c H))))))))).
  apply str_of_int_numeric.
Qed.

Lemma int_of_float_of_decimal (neg : bool) (v : Z) :
  0 <= v < 2 ^ 53 ->
  int_of_float (float_of_decimal neg v 0) = Ok (apply_sign neg v).
Proof.
  intros [H0 Hlt]. unfold float_of_decimal.
  destruct (v =? 0) eqn:E.
  - apply Z.eqb_eq in E. subst v. simpl. destruct neg; reflexivity.
  - apply Z.eqb_neq in E. change (0 <? 0) with false. cbv iota.
    change (10 ^ 0) with 1. rewrite Z.mul_1_r.
    destruct (round_binary64_integer v ltac:(lia)) as [q [e [-> [He Hq]]]].
    replace (971 <? e) with false by (symmetry; apply Z.ltb_ge; lia).
    unfold int_of_float. f_equal.
    assert (Hp : 0 < 2 ^ (- e)) by (apply Z.pow_pos_nonneg; lia).
    destruct (e <? 0) eqn:El.
    + subst q. destruct neg; simpl.
      * rewrite <- Z.mul_opp_l. apply Z.quot_mul. lia.
      * apply Z.quot_mul. lia.
    + apply Z.ltb_ge in El. assert (e = 0) by lia. subst e.
      change (- 0) with 0 in *. change (2 ^ 0) with 1 in *. subst q.
      destruct neg; simpl; lia.
Qed.

(** The decimal text of an integer below [2^53] in absolute value is read
    by [float] and truncated by [int] to that integer. *)
Lemma float_of_str_of_int (z : Z) :
  Z.abs z < 2 ^ 53 ->
  (let! x := float_of_str (str_of_int z) in int_of_float x) = Ok z.
Proof.
  intros Hz. unfold float_of_str.
  rewrite (strip_by_none _ _ (str_of_int_no_space z)).
  rewrite (underscores_ok_none _ None (str_of_int_no_underscore z)).
  rewrite (drop_underscores_none _ (str_of_int_no_underscore z)).
  cbn [negb].
  destruct (take_sign_str_of_int z) as [d [Hd [Hv ->]]].
  destruct (digits_not_a_word d Hd) as [H1 [H2 H3]]. rewrite H1, H2, H3.
  cbn [orb].
  destruct (digits_run_digits d 0 0) as [k [-> [Hk _]]].
  specialize (Hk Hd).
  replace (k + 0 =? 0) with false by (symmetry; apply Z.eqb_neq; lia).
  cbn [exponent]. change (0 - 0) with 0. cbn [bind].
  rewrite Hv, int_of_float_of_decimal by lia.
  now rewrite apply_sign_abs.
Qed.

(** ** Lists and numbers as the log writes them *)

Lemma join_str_last (sep : str) (l : list str) (q : str) :
  join_str sep (l ++ [q]) = flat_map (fun x => x ++ sep) l ++ q.
Proof.
  induction l as [|p l IH]; [reflexivity|].
  change ((p :: l) ++ [q]) with (p :: (l ++ [q])).
  cbn [join_str flat_map]. destruct (l ++ [q]) eqn:E.
  - destruct l; discriminate E.
  - rewrite IH. now rewrite <- !app_assoc.
Qed.

Lemma split_app (sep : ascii) (a s : str) :
  contains sep a = false -> split sep (a ++ sep :: s) = a :: split sep s.
Proof.
  induction a as [|c a IH]; simpl.
  - intros _. now rewrite chr_eqb_refl.
  - intros H. apply orb_false_iff in H as [Hc Ha].
    rewrite Ascii.eqb_sym in Hc. fold (chr_eqb c sep) in Hc.
    now rewrite Hc, (IH Ha).
Qed.

Lemma split_none (sep : ascii) (a : str) :
  contains sep a = false -> split sep a = [a].
Proof.
  induction a as [|c a IH]; simpl; [reflexivity|].
  intros H. apply orb_false_iff in H as [Hc Ha].
  rewrite Ascii.eqb_sym in Hc. fold (chr_eqb c sep) in Hc.
  now rewrite Hc, (IH Ha).
Qed.

(** [split] undoes [join] when no piece holds the separator. *)
Lemma split_join_str (sep : ascii) (pieces : list str) :
  pieces <> [] ->
  Forall (fun q => contains sep q = false) pieces ->
  split sep (join_str [sep] pieces) = pieces.
Proof.
  induction pieces as [|p pieces IH]; [contradiction|].
  intros _ H. inversion H as [|? ? Hp Hrest]; subst.
  destruct pieces as [|q pieces].
  - now apply split_none.
  - cbn [join_str app]. rewrite (split_app sep p _ Hp).
    f_equal. apply IH; [discriminate | exact Hrest].
Qed.

Lemma str_of_int_without (c : ascii) (z : Z) :
  numeric_char c = false -> contains c (str_of_int z) = false.
Proof.
  intros Hc. unfold contains.
  pose proof (str_of_int_numeric z) as H. rewrite forallb_forall in H.
  destruct (existsb (chr_eqb c) (str_of_int z)) eqn:E; [|reflexivity].
  apply existsb_exists in E as [x [Hx He]]. apply chr_eqb_eq in He. subst x.
  rewrite (H c Hx) in Hc. discriminate Hc.
Qed.


(** The texts of a non-empty list of integers, joined by spaces, begin and
    end with a character of a number. *)
Lemma joined_numbers_ends (l : list Z) :
  l <> [] ->
  exists a t u b,
    join_str (py " ") (map str_of_int l) = a :: t
    /\ join_str (py " ") (map str_of_int l) = u ++ [b]
    /\ numeric_char a = true /\ numeric_char b = true.
Proof.
  intros Hl.
  assert (Hfirst : exists a t, join_str (py " ") (map str_of_int l) = a :: t
                               /\ numeric_char a = true).
  { destruct l as [|z l]; [contradiction|].
    pose proof (str_of_int_numeric z) as Hn. pose proof (str_of_int_nonempty z) as Hne.
    cbn [map join_str]. destruct (str_of_int z) as [|a t]; [contradiction|].
    simpl in Hn. apply andb_true_iff in Hn as [Ha _].
    destruct (map str_of_int l); [now exists a, t | eexists a, _; split; [reflexivity | exact Ha]]. }
  assert (Hlast : exists u b, join_str (py " ") (map str_of_int l) = u ++ [b]
                              /\ numeric_char b = true).
  { destruct (exists_last Hl) as [l' [z ->]].
    pose proof (str_of_int_numeric z) as Hn. pose proof (str_of_int_nonempty z) as Hne.
    rewrite map_app. cbn [map]. rewrite join_str_last.
    destruct (exists_last Hne) as [u [b Hb]]. rewrite Hb in *.
    rewrite forallb_app in Hn. apply andb_true_iff in Hn as [_ Hn].
    simpl in Hn. rewrite andb_true_r in Hn.
    eexists _, b. split; [now rewrite app_assoc | exact Hn]. }
  destruct Hfirst as [a [t [H1 Ha]]]. destruct Hlast as [u [b [H2 Hb]]].
  now exists a, t, u, b.
Qed.





Lemma decode_str_of_int (z : Z) :
  Z.abs z < 2 ^ 53 -> decode_value (strip (str_of_int z)) = Ok (VInt z).
Proof.
  intros Hz. unfold strip.
  rewrite strip_by_none.
  2:{ apply (numeric_all _ _
        (fun c H => proj2 (negb_true_iff _) (proj1 (numeric_char_facts c H)))).
      apply str_of_int_numeric. }
  unfold decode_value.
  pose proof (str_of_int_numeric z) as Hn. pose proof (str_of_int_nonempty z) as Hne.
  pose proof (float_of_str_of_int z Hz) as Hf.
  destruct (str_of_int z) as [|a t]; [contradiction|].
  simpl in Hn. apply andb_true_iff in Hn as [Ha _].
  destruct (numeric_char_facts a Ha) as [_ [_ [Hb [_ [_ [_ [_ [_ [_ [Hq _]]]]]]]]]].
  unfold is_brace in Hb. apply orb_false_iff in Hb as [Ho _].
  cbn [py list_ascii_of_string startswith]. rewrite Ho, Hq. cbn [andb].
  destruct (float_of_str (a :: t)) as [x|e]; cbn [bind] in *; [|discriminate Hf].
  now rewrite Hf.
Qed.

(** X23. A number token is read back when the number is a double: a key
    followed by [=] and the decimal text of an integer below [2^53] in
    absolute value binds the key to that integer. *)
Theorem number_token_round_trip :
  forall (info : gmap str pyvalue) (key : str) (z : Z),
    contains "=" key = false ->
    Z.abs z < 2 ^ 53 ->
    organize_step info (key ++ "="%char :: str_of_int z)
    = Ok (<[key := VInt z]> info).
Proof.
  intros info key z Hk Hz.
  rewrite (organize_step_first info key _ Hk).
  now rewrite (decode_str_of_int z Hz).
Qed.

Lemma number_token_round_trip_witness :
  organize_step ∅ (py "refSecond=1388534418") = Ok {[ py "refSecond" := VInt 1388534418 ]}.
Proof.
  exact (number_token_round_trip ∅ (py "refSecond") 1388534418 eq_refl eq_refl).
Defined.

(** ** A request as the log writes it *)

Lemma scan_from_plain (delimiter : option str) (s : str) (st : scan_state) :
  forallb (fun c => negb (is_brace c) && negb (is_delimiter c delimiter)) s = true ->
  scan_from delimiter st s
  = {| separated := separated st; entry := entry st ++ s;
       inside_brace := inside_brace st |}.
Proof.
  revert st. induction s as [|c s IH]; intros st H.
  - simpl. rewrite app_nil_r. now destruct st.
  - simpl in H. apply andb_true_iff in H as [Hc Hs].
    apply andb_true_iff in Hc as [Hb Hd].
    apply negb_true_iff in Hb. apply negb_true_iff in Hd.
    unfold is_brace in Hb. apply orb_false_iff in Hb as [Ho Hcl].
    unfold scan_from in *. cbn [fold_left]. unfold scan_step at 2.
    rewrite Ho, Hcl, Hd. cbn [andb]. rewrite (IH _ Hs). cbn.
    now rewrite <- app_assoc.
Qed.

(** A field made of a plain word and of a list in braces is read as one
    piece, and the scanner is outside braces after it. *)
Lemma scan_list_field (word inner : str) :
  forallb (fun c => negb (is_brace c) && negb (is_delimiter c (Some (py " ")))) word = true ->
  ~ In "}"%char inner ->
  scan (Some (py " ")) (word ++ "{"%char :: inner ++ ["}"%char])
  = {| separated := []; entry := word ++ "{"%char :: inner ++ ["}"%char];
       inside_brace := false |}.
Proof.
  intros Hw Hin. rewrite scan_app. unfold scan.
  rewrite (scan_from_plain _ word scan_init Hw). cbn [scan_init separated entry inside_brace app].
  change ("{"%char :: inner ++ ["}"%char]) with (["{"%char] ++ inner ++ ["}"%char]).
  rewrite !scan_from_app. cbn [scan_from fold_left]. unfold scan_step at 2.
  cbn [chr_eqb Ascii.eqb Bool.eqb andb separated entry inside_brace].
  rewrite (scan_from_inside _ _ _ _ Hin).
  unfold scan_step. cbn. now rewrite <- !app_assoc.
Qed.

Lemma joined_numbers_chars (P : ascii -> bool) (l : list Z) :
  (forall c, numeric_char c = true -> P c = true) -> P " "%char = true ->
  forallb P (join_str (py " ") (map str_of_int l)) = true.
Proof.
  intros Hnum Hsp. induction l as [|z l IH]; [reflexivity|].
  cbn [map join_str]. destruct (map str_of_int l) as [|q qs] eqn:E.
  - apply (numeric_all _ _ Hnum), str_of_int_numeric.
  - rewrite !forallb_app. rewrite (numeric_all _ _ Hnum (str_of_int_numeric z)).
    cbn [py list_ascii_of_string forallb]. rewrite Hsp. exact IH.
Qed.

Lemma list_field_scanned (word : str) (l : list Z) :
  forallb (fun c => negb (is_brace c) && negb (is_delimiter c (Some (py " ")))) word = true ->
  scan (Some (py " ")) (word ++ render_list l)
  = {| separated := []; entry := word ++ render_list l; inside_brace := false |}.
Proof.
  intros Hw. unfold render_list. cbn [py list_ascii_of_string app].
  apply (scan_list_field word _ Hw).
  intros Hin.
  pose proof (joined_numbers_chars (fun c => negb (chr_eqb c "}")) l) as H.
  rewrite forallb_forall in H.
  specialize (H ltac:(intros c Hc; destruct (numeric_char_facts c Hc) as [_ [_ [Hb _]]];
                      unfold is_brace in Hb; apply orb_false_iff in Hb as [_ Hb];
                      now rewrite Hb) eq_refl _ Hin).
  discriminate H.
Qed.

Lemma numeric_char_plain (c : ascii) :
  numeric_char c = true ->
  negb (is_brace c) && negb (is_delimiter c (Some (py " "))) = true.
Proof.
  intros Hc. destruct (numeric_char_facts c Hc) as [_ [_ [Hb [Hs _]]]].
  change (is_delimiter c (Some (py " "))) with (chr_eqb c " ").
  now rewrite Hb, Hs.
Qed.

Lemma number_field_scanned (word : str) (z : Z) :
  forallb (fun c => negb (is_brace c) && negb (is_delimiter c (Some (py " ")))) word = true ->
  scan (Some (py " ")) (word ++ str_of_int z)
  = {| separated := []; entry := word ++ str_of_int z; inside_brace := false |}.
Proof.
  intros Hw. unfold scan. rewrite scan_from_plain; [reflexivity|].
  rewrite forallb_app, Hw. cbn [andb].
  apply (numeric_all _ _ numeric_char_plain), str_of_int_numeric.
Qed.

(** A field read as one piece, followed by a space, is a token. *)
Lemma field_then_space (f rest : str) :
  scan (Some (py " ")) f = {| separated := []; entry := f; inside_brace := false |} ->
  GetT3RequestInfo (f ++ " "%char :: rest) (Some (py " "))
  = f :: GetT3RequestInfo rest (Some (py " ")).
Proof.
  intros Hf.
  assert (Hout : scanned_outside (Some [" "%char]) f " " = true).
  { unfold scanned_outside. rewrite scan_snoc.
    change (Some [" "%char]) with (Some (py " ")). now rewrite Hf. }
  pose proof (tokens_after_outside_delimiter " " ltac:(discriminate) f rest Hout) as H.
  change (Some [" "%char]) with (Some (py " ")) in H. now rewrite H, Hf.
Qed.

Lemma field_at_end (f : str) :
  f <> [] ->
  scan (Some (py " ")) f = {| separated := []; entry := f; inside_brace := false |} ->
  GetT3RequestInfo f (Some (py " ")) = [f].
Proof.
  intros Hne Hf. unfold GetT3RequestInfo, finish. rewrite Hf. cbn.
  destruct f; [contradiction | reflexivity].
Qed.

(** The five tokens of a request. *)
Lemma render_request_tokens (addresses offsets window : list Z) (refSecond refuSecond : Z) :
  GetT3RequestInfo (render_request addresses offsets window refSecond refuSecond)
                   (Some (py " "))
  = [py "addresses=" ++ render_list addresses;
     py "offsets=" ++ render_list offsets;
     py "window=" ++ render_list window;
     py "refSecond=" ++ str_of_int refSecond;
     py "refuSecond=" ++ str_of_int refuSecond].
Proof.
  unfold render_request.
  change (py " offsets=") with (" "%char :: py "offsets=").
  change (py " window=") with (" "%char :: py "window=").
  change (py " refSecond=") with (" "%char :: py "refSecond=").
  change (py " refuSecond=") with (" "%char :: py "refuSecond=").
  cbn [app].
  rewrite (app_assoc (py "addresses=")),
    (field_then_space _ _ (list_field_scanned (py "addresses=") addresses eq_refl)).
  rewrite (app_assoc (py "offsets=")),
    (field_then_space _ _ (list_field_scanned (py "offsets=") offsets eq_refl)).
  rewrite (app_assoc (py "window=")),
    (field_then_space _ _ (list_field_scanned (py "window=") window eq_refl)).
  rewrite (app_assoc (py "refSecond=")),
    (field_then_space _ _ (number_field_scanned (py "refSecond=") refSecond eq_refl)).
  rewrite (field_at_end (py "refuSecond=" ++ str_of_int refuSecond));
    [reflexivity | discriminate | now apply number_field_scanned].
Qed.


Lemma existsb_none (f : ascii -> bool) (s : str) :
  forallb (fun c => negb (f c)) s = true -> existsb f s = false.
Proof.
  induction s as [|c s IH]; [reflexivity|]. simpl. intros H.
  apply andb_true_iff in H as [Hc Hs]. apply negb_true_iff in Hc.
  now rewrite Hc, (IH Hs).
Qed.

Lemma render_list_without_equals (l : list Z) :
  contains "=" (render_list l) = false.
Proof.
  unfold contains, render_list. apply existsb_none.
  rewrite !forallb_app.
  rewrite (joined_numbers_chars (fun c => negb (chr_eqb "=" c)) l); [reflexivity | | reflexivity].
  intros c Hc. destruct (numeric_char_facts c Hc) as [_ [_ [_ [_ [He _]]]]].
  unfold chr_eqb in *. now rewrite Ascii.eqb_sym, He.
Qed.

(** Stripping removes what is stripped around a string whose first and
    last characters are kept. *)
Lemma strip_by_wrapped (p : ascii -> bool) (before after s : str)
    (a b : ascii) (t u : str) :
  s = a :: t -> s = u ++ [b] ->
  forallb p before = true -> forallb p after = true ->
  p a = false -> p b = false ->
  strip_by p (before ++ s ++ after) = s.
Proof.
  intros H1 H2 Hbefore Hafter Ha Hb. unfold strip_by.
  rewrite (lstrip_app_all p before _ Hbefore).
  rewrite H1 at 1. cbn [app]. rewrite (lstrip_head p a _ Ha).
  change (a :: t ++ after) with ((a :: t) ++ after). rewrite <- H1.
  rewrite (rstrip_app_all p s after Hafter), H2.
  now apply rstrip_last.
Qed.

(** What the test of the loop compares the station with: the texts of the
    addresses. *)
Lemma precheck_entries (l : list Z) :
  l <> [] ->
  split " " (strip_chars (py "{}") (render_list l)) = map str_of_int l.
Proof.
  intros Hl.
  destruct (joined_numbers_ends l Hl) as [a [t [u [b [H1 [H2 [Ha Hb]]]]]]].
  assert (Hbrace : forall c, numeric_char c = true ->
            existsb (chr_eqb c) (py "{}") = false).
  { intros c Hc. destruct (numeric_char_facts c Hc) as [_ [_ [Hx _]]].
    unfold is_brace in Hx. cbn [py list_ascii_of_string existsb].
    now rewrite orb_false_r. }
  assert (Hstrip : strip_chars (py "{}") (render_list l)
                   = join_str (py " ") (map str_of_int l)).
  { unfold strip_chars, render_list.
    apply (strip_by_wrapped _ (py "{") (py "}") _ a b t u H1 H2);
      [reflexivity | reflexivity | now apply Hbrace | now apply Hbrace]. }
  rewrite Hstrip. change (py " ") with [" "%char]. apply split_join_str.
  - destruct l; [contradiction | discriminate].
  - apply List.Forall_forall. intros q Hq. apply in_map_iff in Hq as [z [<- _]].
    now apply str_of_int_without.
Qed.

Lemma str_in_texts (x : Z) (l : list Z) :
  str_in (str_of_int x) (map str_of_int l) = true <-> In x l.
Proof.
  rewrite str_in_In, in_map_iff. split.
  - intros [y [Hy Hin]]. pose proof (int_of_str_of_int y) as H.
    rewrite Hy, int_of_str_of_int in H. injection H as ->. exact Hin.
  - intros H. now exists x.
Qed.

(** On a request as the log writes it, the test of the loop is the
    membership of the station in the addresses. *)
Lemma listed_render_request (addresses : list Z) (rest : list str) (LetyID : Z) :
  listed ((py "addresses=" ++ render_list addresses) :: rest) LetyID = true
  <-> In LetyID addresses.
Proof.
  unfold listed. cbn [first_addresses].
  replace (startswith (py "addresses=" ++ render_list addresses) (py "addresses="))
    with true by reflexivity.
  change (py "addresses=" ++ render_list addresses)
    with (py "addresses" ++ "="%char :: render_list addresses).
  rewrite (split_app "=" (py "addresses") _ eq_refl),
    (split_none "=" _ (render_list_without_equals addresses)).
  cbn [item nth_error].
  destruct addresses as [|z l].
  - split; [|intros []]. intros H. exfalso. revert H.
    change (split " " (strip_chars (py "{}") (render_list []))) with [@nil ascii].
    unfold str_in. cbn [existsb]. rewrite orb_false_r. intros H.
    apply str_eqb_eq in H. now apply (str_of_int_nonempty LetyID).
  - rewrite precheck_entries by discriminate. apply str_in_texts.
Qed.




(** X25. On a request as the log writes it, the line is skipped exactly
    when the station is not among the addresses, whatever the other fields
    hold. *)
Theorem well_formed_request_without_station_is_skipped :
  forall (line : str) (addresses offsets window : list Z)
         (refSecond refuSecond LetyID : Z),
    length (split "|" (strip line)) = 6%nat ->
    In (py "IkT3") (split "|" (strip line)) ->
    nth 4 (split "|" (strip line)) []
    = render_request addresses offsets window refSecond refuSecond ->
    (process_line line LetyID = Skipped <-> ~ In LetyID addresses).
Proof.
  intros line addresses offsets window refSecond refuSecond LetyID Hlen Hmark Hcol.
  rewrite (process_line_eligible line LetyID Hlen Hmark), Hcol.
  pose proof (listed_render_request addresses
                [py "offsets=" ++ render_list offsets;
                 py "window=" ++ render_list window;
                 py "refSecond=" ++ str_of_int refSecond;
                 py "refuSecond=" ++ str_of_int refuSecond] LetyID) as Hl.
  rewrite <- render_request_tokens in Hl.
  destruct (listed (GetT3RequestInfo
              (render_request addresses offsets window refSecond refuSecond)
              (Some (py " "))) LetyID) eqn:E.
  - split.
    + intros Hskip. exfalso. revert Hskip E. unfold listed, process_request.
      destruct (first_addresses _) as [|c entry]; [discriminate|].
      cbn [str_eqb]. destruct (item _ 1) as [field|err]; [|discriminate].
      intros Hskip E. rewrite E in Hskip. cbn [negb] in Hskip.
      destruct (let! letyT3 := GetLetyInfo _ LetyID in format_record letyT3);
        discriminate Hskip.
    + intros Hno. exfalso. apply Hno, Hl. reflexivity.
  - split.
    + intros _ Hin. apply Hl in Hin. discriminate Hin.
    + intros _. now apply process_request_not_listed.
Qed.

Lemma well_formed_request_without_station_is_skipped_witness :
  process_line
    (py "1388534418|IkT3|Ct|Pm|addresses={12 33} offsets={1 3} window={0 0} refSecond=1 refuSecond=2|x")
    97
  = Skipped.
Proof.
  refine (proj2 (well_formed_request_without_station_is_skipped
            (py "1388534418|IkT3|Ct|Pm|addresses={12 33} offsets={1 3} window={0 0} refSecond=1 refuSecond=2|x")
            [12; 33] [1; 3] [0; 0] 1 2 97 eq_refl _ eq_refl) _).
  - vm_compute. tauto.
  - intros [H|[H|[]]]; discriminate H.
Defined.

(** ** Runs and records *)

(** X26. A log without any eligible line gives the header alone: when no
    line has six columns and the marker [IkT3], the output file holds the
    header line and the run ends without an exception. *)
Theorem log_without_requests_gives_header :
  forall (inputFile outputFilepath : str) (lines : list str) (LetyID : Z) (name : str),
    out_file inputFile outputFilepath = Ok name ->
    forallb (fun line => negb (eligible line)) lines = true ->
    ParseIkLog inputFile outputFilepath lines LetyID
    = Ok (name, {| written := [py "#gpsSec, gpsMicroSec, offset, window" ++ ["010"%char]];
                   raised := None |}).
Proof.
  intros inputFile outputFilepath lines LetyID name Hname Hall.
  unfold ParseIkLog. rewrite Hname. cbn [bind]. do 2 f_equal.
  generalize [py "#gpsSec, gpsMicroSec, offset, window" ++ ["010"%char]].
  induction lines as [|line lines IH]; intros out; [reflexivity|].
  cbn [forallb] in Hall. apply andb_true_iff in Hall as [Hl Hrest].
  apply negb_true_iff in Hl. cbn [process_lines].
  rewrite (process_line_not_eligible line LetyID Hl). now apply IH.
Qed.

Lemma log_without_requests_gives_header_witness :
  ParseIkLog (py "IkLog_2021_03_04") (py "/out/")
    [py "a|b|c"; py "1|2|3|4|5|6"; []] 97
  = Ok (py "/out/LetyT3Requests_2021_03_04.txt",
        {| written := [py "#gpsSec, gpsMicroSec, offset, window" ++ ["010"%char]];
           raised := None |}).
Proof.
  exact (log_without_requests_gives_header (py "IkLog_2021_03_04") (py "/out/")
           [py "a|b|c"; py "1|2|3|4|5|6"; []] 97 _ eq_refl eq_refl).
Defined.

(** X27. The run stops at the first line that raises: what follows a
    failing line is never read, so the output and the exception are those
    of the log cut after that line, and the run does end with an
    exception. *)
Theorem nothing_is_read_after_a_failure :
  forall (pre post : list str) (bad : str) (LetyID : Z) (e : pyerr) (out : list str),
    process_line bad LetyID = Failed e ->
    process_lines (pre ++ bad :: post) LetyID out
    = process_lines (pre ++ [bad]) LetyID out
    /\ raised (process_lines (pre ++ bad :: post) LetyID out) <> None.
Proof.
  intros pre post bad LetyID e out Hbad. revert out.
  induction pre as [|line pre IH]; intros out; cbn [app process_lines].
  - rewrite Hbad. split; [reflexivity | discriminate].
  - destruct (process_line line LetyID); [apply IH | apply IH |].
    split; [reflexivity | discriminate].
Qed.

Lemma nothing_is_read_after_a_failure_witness :
  process_lines
    ([py "x"] ++ py "t|IkT3|a|b|addresses={97} offsets={x}|c"
       :: [py "t|IkT3|a|b|addresses={97} offsets={7} window={0} refSecond=5 refuSecond=1|c"])
    97 []
  = process_lines ([py "x"] ++ [py "t|IkT3|a|b|addresses={97} offsets={x}|c"]) 97 [].
Proof.
  exact (proj1 (nothing_is_read_after_a_failure [py "x"]
           [py "t|IkT3|a|b|addresses={97} offsets={7} window={0} refSecond=5 refuSecond=1|c"]
           (py "t|IkT3|a|b|addresses={97} offsets={x}|c") 97 ValueError [] eq_refl)).
Defined.

Lemma index_from_some (l : list Z) (x : Z) (k n : nat) :
  index_from k l x = Some n ->
  exists i, n = (k + i)%nat /\ first_index l x i.
Proof.
  revert k. induction l as [|y l IH]; intros k; simpl; [discriminate|].
  destruct (y =? x) eqn:E.
  - intros [= <-]. apply Z.eqb_eq in E. subst y. exists 0%nat.
    split; [lia|]. split; [reflexivity | intros j Hj; lia].
  - intros H. destruct (IH (S k) H) as [i [-> [Hi Hfirst]]].
    exists (S i). split; [lia|]. split; [exact Hi|].
    intros [|j] Hj; simpl.
    + apply Z.eqb_neq in E. congruence.
    + apply Hfirst. lia.
Qed.

(** X28. Every record comes from the request: when the projection gives a
    result, the request decodes, its [addresses] is a list that holds the
    station, first at some index [i], and the result is the values of
    [refSecond] and [refuSecond] followed by the entries of [offsets] and
    [window] at index [i]. *)
Theorem projection_is_sound :
  forall (t3info : list str) (LetyID : Z) (l : list pyvalue),
    GetLetyInfo t3info LetyID = Ok l ->
    exists data addresses i offsets window gpsSec gpsMicroSec offset w,
      OrganizeT3Info t3info = Ok data
      /\ data !! py "addresses" = Some (VList addresses)
      /\ first_index addresses LetyID i
      /\ data !! py "offsets" = Some offsets
      /\ subscript offsets i = Ok offset
      /\ data !! py "window" = Some window
      /\ subscript window i = Ok w
      /\ data !! py "refSecond" = Some gpsSec
      /\ data !! py "refuSecond" = Some gpsMicroSec
      /\ l = [gpsSec; gpsMicroSec; offset; w].
Proof.
  intros t3info LetyID l. unfold GetLetyInfo.
  destruct (OrganizeT3Info t3info) as [data|]; [|discriminate].
  cbn [bind]. unfold lety_data, getitem.
  destruct (data !! py "addresses") as [[z|addresses|s]|] eqn:Ea; try discriminate.
  cbn [bind value_index].
  destruct (index_from 0 addresses LetyID) as [n|] eqn:Ei; [|discriminate].
  destruct (index_from_some _ _ _ _ Ei) as [i [-> Hfirst]]. cbn [bind Nat.add].
  destruct (data !! py "offsets") as [offsets|] eqn:Eo; [|discriminate]. cbn [bind].
  destruct (subscript offsets i) as [offset|] eqn:Eso; [|discriminate]. cbn [bind].
  destruct (data !! py "window") as [window|] eqn:Ew; [|discriminate]. cbn [bind].
  destruct (subscript window i) as [w|] eqn:Esw; [|discriminate]. cbn [bind].
  destruct (data !! py "refSecond") as [gpsSec|] eqn:Es; [|discriminate]. cbn [bind].
  destruct (data !! py "refuSecond") as [gpsMicroSec|] eqn:Eu; [|discriminate]. cbn [bind].
  intros [= <-].
  exists data, addresses, i, offsets, window, gpsSec, gpsMicroSec, offset, w.
  destruct Hfirst as [Hi Hbefore].
  repeat split; try assumption; reflexivity.
Qed.

Lemma projection_is_sound_witness :
  exists data addresses i offsets window gpsSec gpsMicroSec offset w,
    OrganizeT3Info [py "addresses={12 97}"; py "offsets={3 7}"; py "window={9 0}";
                    py "refSecond=555"; py "refuSecond=10"] = Ok data
    /\ data !! py "addresses" = Some (VList addresses)
    /\ first_index addresses 97 i
    /\ data !! py "offsets" = Some offsets
    /\ subscript offsets i = Ok offset
    /\ data !! py "window" = Some window
    /\ subscript window i = Ok w
    /\ data !! py "refSecond" = Some gpsSec
    /\ data !! py "refuSecond" = Some gpsMicroSec
    /\ [VInt 555; VInt 10; VInt 7; VInt 0] = [gpsSec; gpsMicroSec; offset; w].
Proof.
  exact (projection_is_sound
           [py "addresses={12 97}"; py "offsets={3 7}"; py "window={9 0}";
            py "refSecond=555"; py "refuSecond=10"] 97 _ eq_refl).
Defined.
